(** * ozy-cli: SSH configuration loading, identity resolution and git setup

    A shallow embedding of [src/common/ssh.ts] ([getSSHConfig],
    [getUsername]), [src/commands/git/setup.ts] ([setGitValue],
    [isGitRepository], [getGitRemoteOrigin], [gitSetup]) and
    [src/commands/git/hosts.ts] ([listHosts]), together with the properties
    the specification states about them.

    JavaScript strings are sequences of UTF-16 code units, JavaScript
    objects used as maps keep their own keys in enumeration order and
    inherit the members of [Object.prototype], and the collaborators of the
    program (file system, [git], [ssh]) are a record of answers. *)

From Stdlib Require Import List NArith Bool String Ascii Lia Permutation.
Import ListNotations.

Set Implicit Arguments.

(** ** JavaScript strings *)

(** A string is its sequence of UTF-16 code units. *)
Definition jsstring := list N.

(** An ASCII literal of the source. *)
Definition lit (s : string) : jsstring :=
  map N_of_ascii (list_ascii_of_string s).

Definition TAB : N := 9%N.
Definition LF : N := 10%N.
Definition SPACE : N := 32%N.
Definition DQUOTE : N := 34%N.
Definition QUOTE : N := 39%N.
Definition BANG : N := 33%N.
Definition SLASH : N := 47%N.
Definition COLON : N := 58%N.
Definition BACKSLASH : N := 92%N.

Definition str_eqb (a b : jsstring) : bool :=
  if list_eq_dec N.eq_dec a b then true else false.

(** [!s] on a string: only the empty string is falsy. *)
Definition is_empty (s : jsstring) : bool :=
  match s with [] => true | _ :: _ => false end.

(** The code units [String.prototype.trim] strips: ECMAScript WhiteSpace
    (TAB, VT, FF, ZWNBSP and the Unicode space separators) and
    LineTerminator (LF, CR, LS, PS). *)
Definition isWhiteSpace (c : N) : bool :=
  (N.eqb c 9 || N.eqb c 10 || N.eqb c 11 || N.eqb c 12 || N.eqb c 13
   || N.eqb c 32 || N.eqb c 160 || N.eqb c 5760
   || (N.leb 8192 c && N.leb c 8202)
   || N.eqb c 8232 || N.eqb c 8233 || N.eqb c 8239 || N.eqb c 8287
   || N.eqb c 12288 || N.eqb c 65279)%bool.

Fixpoint dropWhile (p : N -> bool) (s : jsstring) : jsstring :=
  match s with
  | [] => []
  | c :: s' => if p c then dropWhile p s' else s
  end.

Fixpoint takeWhile (p : N -> bool) (s : jsstring) : jsstring :=
  match s with
  | [] => []
  | c :: s' => if p c then c :: takeWhile p s' else []
  end.

Definition trimStart (s : jsstring) : jsstring := dropWhile isWhiteSpace s.
Definition trimEnd (s : jsstring) : jsstring :=
  rev (dropWhile isWhiteSpace (rev s)).

(** [s.trim()] *)
Definition trim (s : jsstring) : jsstring := trimEnd (trimStart s).

(** [s.startsWith(p)] *)
Fixpoint startsWith (p s : jsstring) : bool :=
  match p, s with
  | [], _ => true
  | _ :: _, [] => false
  | a :: p', b :: s' => N.eqb a b && startsWith p' s'
  end.

(** [s.substring(n)] *)
Definition substring (n : nat) (s : jsstring) : jsstring := skipn n s.

(** [s.split(sep)] for a separator of one code unit: the pieces between
    the occurrences of [sep]; never the empty array. *)
Fixpoint split (sep : N) (s : jsstring) : list jsstring :=
  match s with
  | [] => [[]]
  | c :: s' =>
      if N.eqb c sep then [] :: split sep s'
      else match split sep s' with
           | piece :: pieces => (c :: piece) :: pieces
           | [] => [[c]]
           end
  end.

(** [arr[0]] of a [split], which is never the empty array. *)
Definition at0 (arr : list jsstring) : jsstring := hd [] arr.

(** [arr.pop()]: [None] is [undefined]. *)
Fixpoint pop (arr : list jsstring) : option jsstring :=
  match arr with
  | [] => None
  | [x] => Some x
  | _ :: arr' => pop arr'
  end.

(** [arr.join(sep)] *)
Fixpoint join (sep : jsstring) (arr : list jsstring) : jsstring :=
  match arr with
  | [] => []
  | [x] => x
  | x :: arr' => x ++ sep ++ join sep arr'
  end.

(** The test [c !== sep] on code units. *)
Definition isnt (sep : N) (c : N) : bool := negb (N.eqb c sep).

(** The piece of [s] after its last [sep] (all of [s] when it has none). *)
Definition lastPiece (sep : N) (s : jsstring) : jsstring :=
  rev (takeWhile (isnt sep) (rev s)).

(** [s.replaceAll(a, b)] for patterns of one code unit. *)
Definition replaceAll (a b : N) (s : jsstring) : jsstring :=
  map (fun c => if N.eqb c a then b else c) s.

(** ** JavaScript objects used as maps

    [hosts] and [keyValues] are plain objects ([{}]).  An object is the list
    of its own properties in the order [for ... in] and [Object.keys]
    enumerate them (array-index keys in ascending numeric order, then the
    other keys in creation order); the [in] operator and property reads
    also see the members every plain object inherits from
    [Object.prototype]. *)

(** The property names of [Object.prototype]. *)
Definition protoNames : list jsstring :=
  map lit
    [ "constructor"; "__defineGetter__"; "__defineSetter__"; "hasOwnProperty";
      "__lookupGetter__"; "__lookupSetter__"; "isPrototypeOf";
      "propertyIsEnumerable"; "toString"; "valueOf"; "__proto__";
      "toLocaleString" ]%string.

Definition inherited (k : jsstring) : bool := existsb (str_eqb k) protoNames.

Definition digit (c : N) : option N :=
  if (N.leb 48 c && N.leb c 57)%bool then Some (c - 48)%N else None.

Fixpoint digits_value (acc : N) (s : jsstring) : option N :=
  match s with
  | [] => Some acc
  | c :: s' =>
      match digit c with
      | Some d => digits_value (10 * acc + d)%N s'
      | None => None
      end
  end.

(** A key that is an array index: a canonical decimal numeral below
    2^32 - 1. *)
Definition arrayIndex (k : jsstring) : option N :=
  match k with
  | [] => None
  | c :: rest =>
      if (N.eqb c 48 && negb (is_empty rest))%bool then None
      else match digits_value 0 k with
           | Some n => if N.ltb n 4294967295 then Some n else None
           | None => None
           end
  end.

Section JsObject.
Variable V : Type.

Definition JsObj := list (jsstring * V).

Fixpoint own_lookup (m : JsObj) (k : jsstring) : option V :=
  match m with
  | [] => None
  | (k', v) :: m' => if str_eqb k' k then Some v else own_lookup m' k
  end.

(** [k in m] *)
Definition obj_in (k : jsstring) (m : JsObj) : bool :=
  match own_lookup m k with
  | Some _ => true
  | None => inherited k
  end.

(** What [m[k]] evaluates to. *)
Inductive Property :=
| OwnProp (v : V)
| InheritedProp
| Undefined.

Definition obj_get (m : JsObj) (k : jsstring) : Property :=
  match own_lookup m k with
  | Some v => OwnProp v
  | None => if inherited k then InheritedProp else Undefined
  end.

Fixpoint replace_own (m : JsObj) (k : jsstring) (v : V) : JsObj :=
  match m with
  | [] => []
  | (k', v') :: m' =>
      if str_eqb k' k then (k', v) :: m' else (k', v') :: replace_own m' k v
  end.

Fixpoint insert_index (m : JsObj) (n : N) (k : jsstring) (v : V) : JsObj :=
  match m with
  | [] => [(k, v)]
  | (k', v') :: m' =>
      match arrayIndex k' with
      | Some n' =>
          if N.ltb n' n then (k', v') :: insert_index m' n k v
          else (k, v) :: m
      | None => (k, v) :: m
      end
  end.

(** [m[k] = v].  Assigning to [__proto__] runs the inherited setter and
    creates no own property (the two assignments of [getSSHConfig] store a
    string under [keyValues], which the setter ignores, and reach [hosts]
    only after [host in hosts] was false, which it never is for
    [__proto__]). *)
Definition obj_set (m : JsObj) (k : jsstring) (v : V) : JsObj :=
  if str_eqb k (lit "__proto__") then m
  else match own_lookup m k with
       | Some _ => replace_own m k v
       | None =>
           match arrayIndex k with
           | Some n => insert_index m n k v
           | None => m ++ [(k, v)]
           end
       end.

(** [Object.keys(m)], also the order of [for (const k in m)]. *)
Definition obj_keys (m : JsObj) : list jsstring := map fst m.
End JsObject.

Arguments OwnProp {V} v.
Arguments InheritedProp {V}.
Arguments Undefined {V}.

(** ** Results ([src/common/result.ts]) *)

Inductive Result (T E : Type) :=
| Ok (value : T)
| Err (error : E) (reason : jsstring) (silent : bool).

Arguments Ok {T E} value.
Arguments Err {T E} error reason silent.

(** [result.success] *)
Definition success {T E} (r : Result T E) : bool :=
  match r with Ok _ => true | Err _ _ _ => false end.

(** The [value] field, which only an [Ok] has. *)
Definition value_of {T E} (r : Result T E) : option T :=
  match r with Ok v => Some v | Err _ _ _ => None end.

(** ** The parsed configuration ([ssh-config]'s lines) *)

(** A directive's value: a string, or an array for a multi-valued one. *)
Inductive Value :=
| VStr (s : jsstring)
| VArr (vs : list jsstring).

(** A line of the parsed document: a comment, or a directive, which is a
    section when it owns a nested [config]. *)
#[warnings="-register-all"]
Inductive Line :=
| Comment (content : jsstring)
| Directive (param : jsstring) (value : Value) (config : option (list Line)).

(** The data [SSHConfigSectionSchema] produces. *)
Record SSHConfigSection := {
  HostName : jsstring;
  User : jsstring;
  IdentityFile : option jsstring;
  AddKeysToAgent : option jsstring;
  IdentitiesOnly : option jsstring
}.

Definition SSHConfigHosts := JsObj SSHConfigSection.

Module GetSSHConfigError.
Inductive t :=
| SSHConfigFileMissingError
| ParseError
| DuplicateHostError
| EntryNotAHostKeyValuePairError
| MissingHostNameError
| MissingUserError
| MalformedError.

(** The string value of each member of the enum. *)
Definition to_string (e : t) : jsstring :=
  match e with
  | SSHConfigFileMissingError => lit "SSHConfigFileMissingError"
  | ParseError => lit "ParseError"
  | DuplicateHostError => lit "DupublicatHostError"
  | EntryNotAHostKeyValuePairError => lit "EntryNotAHostKeyValuePairError"
  | MissingHostNameError => lit "MissingHostNameError"
  | MissingUserError => lit "MissingUserError"
  | MalformedError => lit "MalformedError"
  end.
End GetSSHConfigError.

(** [SSHConfigSectionSchema.safeParse(keyValues)] on an object whose values
    are all strings: the two required keys must be there, the three optional
    ones are kept when there, any other key is stripped. *)
Definition safeParse (keyValues : JsObj jsstring) : option SSHConfigSection :=
  match own_lookup keyValues (lit "HostName"),
        own_lookup keyValues (lit "User") with
  | Some h, Some u =>
      Some {| HostName := h;
              User := u;
              IdentityFile := own_lookup keyValues (lit "IdentityFile");
              AddKeysToAgent := own_lookup keyValues (lit "AddKeysToAgent");
              IdentitiesOnly := own_lookup keyValues (lit "IdentitiesOnly") |}
  | _, _ => None
  end.

(** A thrown error, as the text its [toString()] gives. *)
Definition Error := jsstring.

(** The answers of the file system and of the subprocesses during one run. *)
Inductive GitConfigLocation := Local | Global.

Record World := {
  (** [git rev-parse --is-inside-work-tree]: [Some e] when the shell throws *)
  git_rev_parse : option Error;
  (** [git config --get remote.origin.url]: the text printed, or a throw *)
  git_remote_origin_url : Error + jsstring;
  (** [fs.exists(path)] *)
  fs_exists : jsstring -> bool;
  (** [fs.readFile(path)], decoded by [toString()] *)
  fs_readFile : jsstring -> Error + jsstring;
  (** [ssh -T host 2>&1] with [nothrow()]: the captured output, or a throw
      of the shell itself *)
  ssh_T : jsstring -> Error + jsstring;
  (** [git config --<location> k v]: [Some e] when the shell throws *)
  git_config : GitConfigLocation -> jsstring -> jsstring -> option Error
}.

(** ** Effects: a trace of what the program did, and thrown errors *)

Inductive Command :=
| GitRevParse
| GitConfigGetRemoteOriginUrl
| SshT (sshHost : jsstring)
| GitConfigSet (location : GitConfigLocation) (k v : jsstring).

Inductive Event :=
| Shell (c : Command)
| Log (msg : jsstring).

(** A computation: the events it produced, and the value it returned or the
    error it threw. *)
Definition M (A : Type) : Type := (list Event * (Error + A))%type.

Definition ret {A} (a : A) : M A := ([], inr a).

Definition throw {A} (e : Error) : M A := ([], inl e).

Definition bind {A B} (m : M A) (f : A -> M B) : M B :=
  match m with
  | (t, inl e) => (t, inl e)
  | (t, inr a) => let '(t', r) := f a in (t ++ t', r)
  end.

Notation "x <- c1 ;; c2" := (bind c1 (fun x => c2))
  (at level 61, c1 at next level, right associativity).
Notation "c1 ;; c2" := (bind c1 (fun _ => c2))
  (at level 61, right associativity).

(** [try { body } catch (e) { handler e }] *)
Definition try_catch {A} (body : M A) (handler : Error -> M A) : M A :=
  match body with
  | (t, inr a) => (t, inr a)
  | (t, inl e) => let '(t', r) := handler e in (t ++ t', r)
  end.

Definition log (msg : jsstring) : M unit := ([Log msg], inr tt).

(** A shell command that prints nothing the program reads. *)
Definition sh (c : Command) (outcome : option Error) : M unit :=
  ([Shell c], match outcome with None => inr tt | Some e => inl e end).

(** A shell command whose output the program reads. *)
Definition sh_text (c : Command) (outcome : Error + jsstring) : M jsstring :=
  ([Shell c], outcome).

(** The events of a computation, and its outcome. *)
Definition trace {A} (m : M A) : list Event := fst m.
Definition outcome {A} (m : M A) : Error + A := snd m.

(** The [git config] writes a trace attempted, in order. *)
Fixpoint writes (t : list Event)
  : list (GitConfigLocation * jsstring * jsstring) :=
  match t with
  | [] => []
  | Shell (GitConfigSet location k v) :: t' => (location, k, v) :: writes t'
  | _ :: t' => writes t'
  end.

(** A value of type [string | undefined] under [!x]: [None] when falsy. *)
Definition truthy (x : option jsstring) : option jsstring :=
  match x with
  | Some (c :: s) => Some (c :: s)
  | _ => None
  end.


Module GitSetupError.
Inductive t :=
| NotInGitDirectoryError
| NoRemoteOriginError
| RemoteOriginIsNotSSHError
| SSHConfigFileMissingError
| SSHConfigFileMalformedError
| SSHConfigHostMissingError
| SSHPubkeyMissingError
| SSHPubkeyMalformedError
| SSHPubkeyNotAttachedToUserError.
End GitSetupError.

Module ListGitHostsError.
Inductive t := MalformedSSHConfigFile.
End ListGitHostsError.

(** ** The program *)

Section Program.
(** Functions of the libraries and of the runtime the program calls. *)
Variable expandTilde : jsstring -> jsstring.
(** [SSHConfig.parse(text)]: the lines, or a throw. *)
Variable SSHConfig_parse : jsstring -> Error + list Line.
Variable JSON_stringify : Value -> jsstring.
(** A value interpolated into a template string. *)
Variable String_of : Value -> jsstring.
(** [result.error.toString()] of a failed [safeParse]. *)
Variable zodError_toString : JsObj jsstring -> jsstring.

(** *** [src/common/ssh.ts] *)

(** The inner loop of [getSSHConfig], over [line.config]. *)
Fixpoint sectionLoop (sshConfigPath host : jsstring) (config : list Line)
    (keyValues : JsObj jsstring)
  : Result (JsObj jsstring) GetSSHConfigError.t :=
  match config with
  | [] => Ok keyValues
  | Comment _ :: rest => sectionLoop sshConfigPath host rest keyValues
  | Directive innerParam innerValue _ :: rest =>
      match innerValue with
      | VStr s =>
          sectionLoop sshConfigPath host rest (obj_set keyValues innerParam s)
      | VArr _ =>
          Err GetSSHConfigError.MalformedError
            (lit "ssh file '" ++ sshConfigPath ++ lit "' at Host '" ++ host
             ++ lit "' at key '" ++ innerParam
             ++ lit "' has non string value '" ++ String_of innerValue
             ++ [QUOTE])
            false
      end
  end.

(** The outer loop of [getSSHConfig], over the lines of the document. *)
Fixpoint hostsLoop (sshConfigPath : jsstring) (sshFile : list Line)
    (hosts : SSHConfigHosts)
  : Result SSHConfigHosts GetSSHConfigError.t :=
  match sshFile with
  | [] => Ok hosts
  | Comment _ :: rest => hostsLoop sshConfigPath rest hosts
  | Directive curParam host config :: rest =>
      let valueStr := JSON_stringify host in
      if negb (str_eqb curParam (lit "Host")) then
        Err GetSSHConfigError.EntryNotAHostKeyValuePairError
          (lit "Unexpected top-level entry in ssh file '" ++ sshConfigPath
           ++ lit "': " ++ curParam ++ lit "=" ++ valueStr)
          false
      else
      match host with
      | VArr _ =>
          Err GetSSHConfigError.EntryNotAHostKeyValuePairError
            (lit "top-level Host " ++ curParam
             ++ lit " has value of non string '" ++ valueStr ++ [QUOTE])
            false
      | VStr host =>
      match config with
      | None =>
          Err GetSSHConfigError.EntryNotAHostKeyValuePairError
            (lit "top-level non-section detected in ssh file '"
             ++ sshConfigPath ++ lit "': " ++ curParam ++ lit "=" ++ valueStr)
            false
      | Some config =>
      if obj_in host hosts then
        Err GetSSHConfigError.DuplicateHostError
          (lit "ssh file '" ++ sshConfigPath
           ++ lit "' contains duplicate Hosts named '" ++ host ++ [QUOTE])
          false
      else
      match sectionLoop sshConfigPath host config [] with
      | Err error reason silent => Err error reason silent
      | Ok keyValues =>
      match safeParse keyValues with
      | None =>
          Err GetSSHConfigError.MalformedError
            (lit "malformed section at Host '" ++ host ++ lit "' due to "
             ++ zodError_toString keyValues)
            false
      | Some data => hostsLoop sshConfigPath rest (obj_set hosts host data)
      end end end end
  end.

Definition defaultSSHConfigPath : jsstring := lit "~/.ssh/config".

Definition getSSHConfig (w : World) (sshConfigPathPartial : jsstring)
  : Result SSHConfigHosts GetSSHConfigError.t :=
  let sshConfigPath := expandTilde sshConfigPathPartial in
  let sshFileExists := fs_exists w sshConfigPath in
  if negb sshFileExists then
    Err GetSSHConfigError.SSHConfigFileMissingError
      (lit "No file found at " ++ sshConfigPath) false
  else
  match fs_readFile w sshConfigPath with
  | inl error =>
      Err GetSSHConfigError.ParseError
        (lit "unable to parse ssh file " ++ sshConfigPath ++ [LF] ++ error)
        false
  | inr sshFileContent =>
  match SSHConfig_parse sshFileContent with
  | inl error =>
      Err GetSSHConfigError.ParseError
        (lit "unable to parse ssh file " ++ sshConfigPath ++ [LF] ++ error)
        false
  | inr sshFile => hostsLoop sshConfigPath sshFile []
  end end.

Definition getUsername (w : World) (sshHost : jsstring)
  : M (option jsstring) :=
  try_catch
    (stdout <- sh_text (SshT sshHost) (ssh_T w sshHost) ;;
     let output := trim stdout in
     if startsWith (lit "ssh: Could not resolve") output then
       log output ;;
       ret None
     else if startsWith (lit "Hi ") output then
       let name := at0 (split BANG (substring 3 output)) in
       ret (Some name)
     else
       log (lit "Unable to discern output ssh -T output format") ;;
       log output ;;
       ret None)
    (fun error =>
       log (lit "unable to get username due to") ;;
       log error ;;
       ret None).

(** *** [src/commands/git/setup.ts] *)

Definition prefix (location : GitConfigLocation) : jsstring :=
  match location with
  | Local => lit " (local)"
  | Global => lit "(global)"
  end.

Definition setGitValue (w : World) (k v : jsstring)
    (location : GitConfigLocation) : M (Result bool bool) :=
  try_catch
    (sh (GitConfigSet location k v) (git_config w location k v) ;;
     log (prefix location ++ lit " " ++ k ++ lit "=" ++ v) ;;
     ret (Ok true))
    (fun error =>
       let errorStr :=
         lit "unable to set git config key of " ++ [DQUOTE] ++ k
         ++ [DQUOTE] ++ lit " to " ++ [DQUOTE] ++ v ++ [DQUOTE]
         ++ lit " due to" ++ [LF] ++ error in
       log errorStr ;;
       ret (Err false errorStr false)).

Definition isGitRepository (w : World) : M bool :=
  try_catch
    (sh GitRevParse (git_rev_parse w) ;;
     ret true)
    (fun error =>
       log error ;;
       ret false).

Definition getGitRemoteOrigin (w : World) : M (option jsstring) :=
  try_catch
    (result <- sh_text GitConfigGetRemoteOriginUrl
                 (git_remote_origin_url w) ;;
     ret (Some (trim result)))
    (fun _ => ret None).

(** [await fs.readFile(path)] followed by [toString()]; it may throw. *)
Definition readFile (w : World) (path : jsstring) : M jsstring :=
  ([], fs_readFile w path).

(** [hostConfig.IdentityFile]: members inherited from [Object.prototype]
    have no such property; reading it from [undefined] throws. *)
Definition hostConfig_IdentityFile (hostConfig : Property SSHConfigSection)
  : M (option jsstring) :=
  match hostConfig with
  | OwnProp section => ret (IdentityFile section)
  | InheritedProp => ret None
  | Undefined =>
      throw (lit "TypeError: undefined is not an object")
  end.

(** The expression bound to [sshHost] in [gitSetup]. *)
Definition sshHostOf (remoteOrigin : jsstring) : jsstring :=
  at0 (split COLON (substring 4 remoteOrigin)).

(** The expression bound to [email] in [gitSetup], on the text read from
    the public key file. *)
Definition emailOf (content : jsstring) : option jsstring :=
  pop (split SPACE (trim content)).

Definition gitSetup (w : World) : M (Result bool GitSetupError.t) :=
  (* 1. Are we in a git repo? *)
  isRepo <- isGitRepository w ;;
  if negb isRepo then
    ret (Err GitSetupError.NotInGitDirectoryError
           (lit "Current directory is not a Git repository.") false)
  else
  (* 2. Does this git repo have a remote named origin configured? *)
  remoteOrigin <- getGitRemoteOrigin w ;;
  match truthy remoteOrigin with
  | None =>
      ret (Err GitSetupError.NoRemoteOriginError
             (lit "No remote origin configured.") false)
  | Some remoteOrigin =>
  (* 3. Is this remote origin an SSH remote? *)
  if negb (startsWith (lit "git@") remoteOrigin) then
    ret (Err GitSetupError.RemoteOriginIsNotSSHError
           (lit "Remote origin '" ++ remoteOrigin
            ++ lit "' isn't an ssh-based origin") false)
  else
  let sshHost := sshHostOf remoteOrigin in
  (* 4. Does the current user have SSH configured? If so load it *)
  let sshConfigFileResult := getSSHConfig w defaultSSHConfigPath in
  match sshConfigFileResult with
  | Err error reason _ =>
      ret (Err GitSetupError.SSHConfigFileMalformedError
             (GetSSHConfigError.to_string error ++ lit ": " ++ reason) false)
  | Ok sshConfigFile =>
  (* 5. Does the SSH config have a host entry for the origin remote? *)
  if negb (obj_in sshHost sshConfigFile) then
    let errorMsg :=
      join [LF]
        ([ lit "No existing ssh config entry for the origin remote host '"
             ++ sshHost ++ [QUOTE];
           lit "Existing Hosts are" ]
         ++ obj_keys sshConfigFile) in
    ret (Err GitSetupError.SSHConfigHostMissingError errorMsg false)
  else
  (* 6. Get the AuthN pubkey from the SSH config *)
  let hostConfig := obj_get sshConfigFile sshHost in
  identityFileEntry <- hostConfig_IdentityFile hostConfig ;;
  match truthy identityFileEntry with
  | None =>
      ret (Err GitSetupError.SSHPubkeyMissingError
             (lit "No IdentityFile entry found for Host '" ++ sshHost
              ++ [QUOTE]) false)
  | Some identityFileEntry =>
  let identityFile := expandTilde identityFileEntry in
  let identityFilePath := identityFile ++ lit ".pub" in
  if negb (fs_exists w identityFilePath) then
    ret (Err GitSetupError.SSHPubkeyMissingError
           (lit "No such file exists " ++ identityFilePath) false)
  else
  (* 7. Get email from pubkey *)
  content <- readFile w identityFilePath ;;
  let email := emailOf content in
  match truthy email with
  | None =>
      ret (Err GitSetupError.SSHPubkeyMalformedError
             (lit "No email found in file " ++ identityFilePath) false)
  | Some email =>
  (* 8. Get username by testing the SSH connection *)
  username <- getUsername w sshHost ;;
  match truthy username with
  | None =>
      ret (Err GitSetupError.SSHPubkeyNotAttachedToUserError
             (lit "Could not determine username. Check if pubkey at "
              ++ identityFilePath
              ++ lit " is saved in github as an AuthN key") false)
  | Some username =>
  (* 9. Set git config values *)
  setGitValue w (lit "commit.gpgsign") (lit "true") Global ;;
  setGitValue w (lit "tag.gpgsign") (lit "true") Global ;;
  setGitValue w (lit "gpg.format") (lit "ssh") Global ;;
  setGitValue w (lit "user.signingkey")
    (replaceAll BACKSLASH SLASH identityFilePath) Local ;;
  setGitValue w (lit "user.name") username Local ;;
  setGitValue w (lit "user.email") email Local ;;
  ret (Ok true)
  end end end end end.

(** *** [src/commands/git/hosts.ts] *)

(** The [for ... in] loop of [listHosts], which fills [gitHosts]; every
    [host] it visits is an own key, so [sshConfig.value[host]] is there. *)
Definition gitHostsOf (sshConfig : SSHConfigHosts) : list jsstring :=
  fold_left
    (fun gitHosts host =>
       match own_lookup sshConfig host with
       | Some hostConfig =>
           if str_eqb (HostName hostConfig) (lit "github.com")
           then gitHosts ++ [host]
           else gitHosts
       | None => gitHosts
       end)
    (obj_keys sshConfig) [].

(** [arr.forEach(x => { log(f x) })] *)
Fixpoint forEach_log (f : jsstring -> jsstring) (arr : list jsstring)
  : M unit :=
  match arr with
  | [] => ret tt
  | x :: arr' => log (f x) ;; forEach_log f arr'
  end.

Definition listHosts (w : World) : M (Result bool ListGitHostsError.t) :=
  let sshConfig := getSSHConfig w defaultSSHConfigPath in
  match sshConfig with
  | Err error reason _ =>
      ret (Err ListGitHostsError.MalformedSSHConfigFile
             (GetSSHConfigError.to_string error ++ lit ": " ++ reason) false)
  | Ok value =>
      let gitHosts := gitHostsOf value in
      log (lit "Available hosts:") ;;
      forEach_log (fun host => lit " - " ++ host) gitHosts ;;
      ret (Ok true)
  end.


(** *** [src/common/command.ts] and the two commands *)

(** The string value of each member of the two enums. *)
Definition GitSetupError_to_string (e : GitSetupError.t) : jsstring :=
  match e with
  | GitSetupError.NotInGitDirectoryError => lit "NotInGitDirectoryError"
  | GitSetupError.NoRemoteOriginError => lit "NoRemoteOriginError"
  | GitSetupError.RemoteOriginIsNotSSHError => lit "RemoteOriginIsNotSSHError"
  | GitSetupError.SSHConfigFileMissingError => lit "SSHConfigFileMissingError"
  | GitSetupError.SSHConfigFileMalformedError =>
      lit "SSHConfigFileMalformedError"
  | GitSetupError.SSHConfigHostMissingError => lit "SSHConfigHostMissingError"
  | GitSetupError.SSHPubkeyMissingError => lit "SSHPubkeyMissingError"
  | GitSetupError.SSHPubkeyMalformedError => lit "SSHPubkeyMalformedError"
  | GitSetupError.SSHPubkeyNotAttachedToUserError =>
      lit "SSHPubkeyNotAttachedToUserError"
  end.

Definition ListGitHostsError_to_string (e : ListGitHostsError.t) : jsstring :=
  match e with
  | ListGitHostsError.MalformedSSHConfigFile => lit "MalformedSSHConfigFile"
  end.

(** How the action of a command ends: it reaches [process.exit()], or its
    promise is rejected by an error thrown before. *)
Inductive Termination :=
| Exited
| Rejected (error : Error).

(** A command: its name, its description and what its action does. *)
Record CliCommand := {
  name : jsstring;
  description : jsstring;
  action : list Event * Termination
}.

(** [makeCommand(name, description, action)]; [to_string] renders the error
    kind interpolated in the log line. *)
Definition makeCommand {E} (to_string : E -> jsstring)
    (name description : jsstring) (action : M (Result bool E)) : CliCommand :=
  {| name := name;
     description := description;
     action :=
       match
         (result <- action ;;
          match result with
          | Ok _ => ret tt
          | Err error reason _ => log (to_string error ++ lit ": " ++ reason)
          end)
       with
       | (t, inr _) => (t, Exited)
       | (t, inl error) => (t, Rejected error)
       end |}.

Definition setup (w : World) : CliCommand :=
  makeCommand GitSetupError_to_string (lit "setup")
    (lit "setup verified git commits for current repo") (gitSetup w).

Definition hosts (w : World) : CliCommand :=
  makeCommand ListGitHostsError_to_string (lit "hosts")
    (lit "show all configured github.com SSH hosts") (listHosts w).
End Program.

(** ** Vocabulary of the properties *)

(** The aliases a document declares with [Host], in order. *)
Fixpoint aliases (sshFile : list Line) : list jsstring :=
  match sshFile with
  | [] => []
  | Directive param (VStr host) _ :: rest =>
      if str_eqb param (lit "Host") then host :: aliases rest
      else aliases rest
  | _ :: rest => aliases rest
  end.

(** How many times a document declares [alias]. *)
Definition occurrences (alias : jsstring) (sshFile : list Line) : nat :=
  count_occ (list_eq_dec N.eq_dec) (aliases sshFile) alias.

(** The values a stanza declares for [key], in order. *)
Fixpoint declaredValues (key : jsstring) (config : list Line)
  : list jsstring :=
  match config with
  | [] => []
  | Directive param (VStr v) _ :: rest =>
      if str_eqb param key then v :: declaredValues key rest
      else declaredValues key rest
  | _ :: rest => declaredValues key rest
  end.

(** The value of the last declaration of [key] in a stanza. *)
Definition lastDeclared (key : jsstring) (config : list Line)
  : option jsstring :=
  pop (declaredValues key config).

Definition is_empty_list {A} (l : list A) : bool :=
  match l with [] => true | _ :: _ => false end.

Definition declares (key : jsstring) (config : list Line) : bool :=
  negb (is_empty_list (declaredValues key config)).

Definition stringValued (line : Line) : bool :=
  match line with
  | Comment _ => true
  | Directive _ (VStr _) _ => true
  | Directive _ (VArr _) _ => false
  end.

(** A top-level line of a well-formed text: a comment, or a [Host]
    declaration whose nested keys have string values and include
    [HostName] and [User]. *)
Definition wellFormedStanza (line : Line) : bool :=
  match line with
  | Comment _ => true
  | Directive param (VStr _) (Some config) =>
      str_eqb param (lit "Host")
      && forallb stringValued config
      && declares (lit "HostName") config
      && declares (lit "User") config
  | Directive _ _ _ => false
  end.

Definition wellFormed (sshFile : list Line) : bool :=
  forallb wellFormedStanza sshFile.

(** A run of [gitSetup] that does not return the error kind [kind]. *)
Definition never (kind : GitSetupError.t)
    (m : M (Result bool GitSetupError.t)) : Prop :=
  forall reason silent, outcome m <> inr (Err kind reason silent).

(** The test of [listHosts] on an entry of the mapping. *)
Definition onGithub (entry : jsstring * SSHConfigSection) : bool :=
  str_eqb (HostName (snd entry)) (lit "github.com").


(** ** A concrete runtime and concrete runs *)

(** [expandTilde] for a user whose home directory is [/home/me]. *)
Definition home_expandTilde (path : jsstring) : jsstring :=
  match path with
  | [126%N] => lit "/home/me"
  | 126%N :: 47%N :: rest => lit "/home/me/" ++ rest
  | _ => path
  end.

(** [JSON.stringify] of a string with no character to escape. *)
Definition quoted (s : jsstring) : jsstring := [DQUOTE] ++ s ++ [DQUOTE].

Definition plain_JSON_stringify (v : Value) : jsstring :=
  match v with
  | VStr s => quoted s
  | VArr vs => lit "[" ++ join (lit ",") (map quoted vs) ++ lit "]"
  end.

Definition plain_String_of (v : Value) : jsstring :=
  match v with
  | VStr s => s
  | VArr vs => join (lit ",") vs
  end.

Definition plain_zodError_toString (_ : JsObj jsstring) : jsstring :=
  lit "ZodError".

(** A text of several lines, each ended by a line feed. *)
Definition text (ls : list string) : jsstring :=
  flat_map (fun l => lit l ++ [LF]) ls.

(** A directive of a stanza. *)
Definition kv (param v : string) : Line :=
  Directive (lit param) (VStr (lit v)) None.

Definition stanza (alias : string) (config : list Line) : Line :=
  Directive (lit "Host") (VStr (lit alias)) (Some config).

(** Two hosts, one with an identity file. *)
Definition twoHostsText : jsstring :=
  text [ "# accounts";
         "Host work";
         "  HostName github.com";
         "  User git";
         "  IdentityFile ~/.ssh/id_work";
         "Host home";
         "  HostName gitlab.com";
         "  User git" ]%string.

Definition twoHosts : list Line :=
  [ Comment (lit "# accounts");
    stanza "work" [ kv "HostName" "github.com"; kv "User" "git";
                    kv "IdentityFile" "~/.ssh/id_work" ];
    stanza "home" [ kv "HostName" "gitlab.com"; kv "User" "git" ] ].

(** Three hosts, two of them on [github.com]. *)
Definition threeHostsText : jsstring :=
  text [ "Host work";
         "  HostName github.com";
         "  User git";
         "Host home";
         "  HostName gitlab.com";
         "  User git";
         "Host oss";
         "  HostName github.com";
         "  User git" ]%string.

Definition threeHosts : list Line :=
  [ stanza "work" [ kv "HostName" "github.com"; kv "User" "git" ];
    stanza "home" [ kv "HostName" "gitlab.com"; kv "User" "git" ];
    stanza "oss" [ kv "HostName" "github.com"; kv "User" "git" ] ].

(** The alias [work] declared again after [home]. *)
Definition repeatedHostText : jsstring :=
  text [ "Host work";
         "  HostName github.com";
         "  User git";
         "Host home";
         "  HostName gitlab.com";
         "  User git";
         "Host work";
         "  HostName github.com";
         "  User me" ]%string.

Definition repeatedHost : list Line :=
  [ stanza "work" [ kv "HostName" "github.com"; kv "User" "git" ];
    stanza "home" [ kv "HostName" "gitlab.com"; kv "User" "git" ];
    stanza "work" [ kv "HostName" "github.com"; kv "User" "me" ] ].

(** The alias [work] declared twice, after a top-level [Include]. *)
Definition includeThenRepeatText : jsstring :=
  text [ "Include ~/.ssh/extra";
         "Host work";
         "  HostName github.com";
         "  User git";
         "Host work";
         "  HostName github.com";
         "  User me" ]%string.

Definition includeThenRepeat : list Line :=
  [ kv "Include" "~/.ssh/extra";
    stanza "work" [ kv "HostName" "github.com"; kv "User" "git" ];
    stanza "work" [ kv "HostName" "github.com"; kv "User" "me" ] ].

(** One host that declares two identity files. *)
Definition twoIdentitiesText : jsstring :=
  text [ "Host work";
         "  HostName github.com";
         "  User git";
         "  IdentityFile ~/.ssh/id_first";
         "  IdentityFile ~/.ssh/id_second" ]%string.

Definition twoIdentities : list Line :=
  [ stanza "work" [ kv "HostName" "github.com"; kv "User" "git";
                    kv "IdentityFile" "~/.ssh/id_first";
                    kv "IdentityFile" "~/.ssh/id_second" ] ].

(** One host whose alias is the name of a member of [Object.prototype]. *)
Definition inheritedAliasText : jsstring :=
  text [ "Host toString";
         "  HostName github.com";
         "  User git" ]%string.

Definition inheritedAlias : list Line :=
  [ stanza "toString" [ kv "HostName" "github.com"; kv "User" "git" ] ].

(** What [SSHConfig.parse] gives for the texts above. *)
Definition parseTable : JsObj (list Line) :=
  [ (twoHostsText, twoHosts);
    (threeHostsText, threeHosts);
    (repeatedHostText, repeatedHost);
    (includeThenRepeatText, includeThenRepeat);
    (twoIdentitiesText, twoIdentities);
    (inheritedAliasText, inheritedAlias) ].

Definition table_parse (content : jsstring) : Error + list Line :=
  match own_lookup parseTable content with
  | Some sshFile => inr sshFile
  | None => inl (lit "Error: text outside the table")
  end.

(** A world inside a repository: the answer of the remote query, the text
    of [/home/me/.ssh/config] when there, the other files there, the answer
    of the probe and of each write. *)
Definition world (remote : Error + jsstring) (config : option jsstring)
    (files : JsObj jsstring) (probe : Error + jsstring)
    (answer : GitConfigLocation -> jsstring -> jsstring -> option Error)
  : World :=
  let file path :=
    if str_eqb path (lit "/home/me/.ssh/config") then config
    else own_lookup files path in
  {| git_rev_parse := None;
     git_remote_origin_url := remote;
     fs_exists := fun path =>
       match file path with Some _ => true | None => false end;
     fs_readFile := fun path =>
       match file path with
       | Some content => inr content
       | None => inl (lit "Error: ENOENT")
       end;
     ssh_T := fun _ => probe;
     git_config := answer |}.

Definition run_getSSHConfig (w : World) (path : jsstring) :=
  getSSHConfig home_expandTilde table_parse plain_JSON_stringify
    plain_String_of plain_zodError_toString w path.

Definition run_gitSetup (w : World) :=
  gitSetup home_expandTilde table_parse plain_JSON_stringify
    plain_String_of plain_zodError_toString w.

Definition run_listHosts (w : World) :=
  listHosts home_expandTilde table_parse plain_JSON_stringify
    plain_String_of plain_zodError_toString w.

Definition greeting : jsstring :=
  lit "Hi bob! You've successfully authenticated..." ++ [LF].

Definition alicePubkey : jsstring :=
  lit "ssh-ed25519 AAAAC3...  alice@example.com" ++ [LF].

(** The same key with tabs between its fields. *)
Definition tabbedPubkey : jsstring :=
  lit "ssh-ed25519" ++ [TAB] ++ lit "AAAAC3..." ++ [TAB]
  ++ lit "alice@example.com" ++ [LF].

(** Every write fails. *)
Definition allFail (_ : GitConfigLocation) (_ _ : jsstring) : option Error :=
  Some (lit "ShellError: Failed with exit code 255").

Definition allSucceed (_ : GitConfigLocation) (_ _ : jsstring)
  : option Error := None.

(** The repository of [git@work:org/repo.git], [work]'s public key [key]. *)
Definition workWorld (key : jsstring)
    (answer : GitConfigLocation -> jsstring -> jsstring -> option Error)
  : World :=
  world (inr (lit "git@work:org/repo.git" ++ [LF])) (Some twoHostsText)
    [(lit "/home/me/.ssh/id_work.pub", key)] (inr greeting) answer.

(** The last token of a text, tokens delimited by white space. *)
Definition lastWhiteSpaceToken (content : jsstring) : jsstring :=
  rev (takeWhile (fun c => negb (isWhiteSpace c)) (rev (trim content))).

(** The mapping of [twoHosts] and of [threeHosts]. *)
Definition section (hostName user : string) (identityFile : option string)
  : SSHConfigSection :=
  {| HostName := lit hostName;
     User := lit user;
     IdentityFile := option_map lit identityFile;
     AddKeysToAgent := None;
     IdentitiesOnly := None |}.

Definition twoHostsMapping : SSHConfigHosts :=
  [ (lit "work", section "github.com" "git" (Some "~/.ssh/id_work"%string));
    (lit "home", section "gitlab.com" "git" None) ].

Definition threeHostsMapping : SSHConfigHosts :=
  [ (lit "work", section "github.com" "git" None);
    (lit "home", section "gitlab.com" "git" None);
    (lit "oss", section "github.com" "git" None) ].

(** A repository whose remote names a host that is no alias of the
    configuration, but a member of [Object.prototype]. *)
Definition toStringWorld : World :=
  world (inr (lit "git@toString:org/repo.git" ++ [LF])) (Some twoHostsText)
    [] (inr greeting) allSucceed.

(** A repository whose user has no SSH configuration file. *)
Definition noConfigWorld : World :=
  world (inr (lit "git@work:org/repo.git" ++ [LF])) None [] (inr greeting)
    allSucceed.

(** A world whose configuration file holds [config]. *)
Definition configWorld (config : jsstring) : World :=
  world (inr (lit "git@work:org/repo.git" ++ [LF])) (Some config) []
    (inr greeting) allSucceed.

(** A world whose probe prints [stdout]. *)
Definition probeWorld (stdout : jsstring) : World :=
  world (inr (lit "git@work:org/repo.git" ++ [LF])) (Some twoHostsText)
    [(lit "/home/me/.ssh/id_work.pub", alicePubkey)] (inr stdout) allSucceed.

(** ** Vocabulary of the further properties *)

(** The shell commands a trace ran, in order. *)
Fixpoint commands (t : list Event) : list Command :=
  match t with
  | [] => []
  | Shell c :: t' => c :: commands t'
  | Log _ :: t' => commands t'
  end.

(** The lines a trace logged, in order. *)
Fixpoint logged (t : list Event) : list jsstring :=
  match t with
  | [] => []
  | Log msg :: t' => msg :: logged t'
  | Shell _ :: t' => logged t'
  end.

(** The six writes of [gitSetup], as commands. *)
Definition sixWrites (identityFilePath username email : jsstring)
  : list Command :=
  [ GitConfigSet Global (lit "commit.gpgsign") (lit "true");
    GitConfigSet Global (lit "tag.gpgsign") (lit "true");
    GitConfigSet Global (lit "gpg.format") (lit "ssh");
    GitConfigSet Local (lit "user.signingkey")
      (replaceAll BACKSLASH SLASH identityFilePath);
    GitConfigSet Local (lit "user.name") username;
    GitConfigSet Local (lit "user.email") email ].

Definition isComment (line : Line) : bool :=
  match line with Comment _ => true | Directive _ _ _ => false end.

(** A document without its comments, top-level and nested. *)
Definition stripComments (sshFile : list Line) : list Line :=
  map (fun line =>
         match line with
         | Directive param value (Some config) =>
             Directive param value
               (Some (filter (fun l => negb (isComment l)) config))
         | _ => line
         end)
      (filter (fun l => negb (isComment l)) sshFile).

(** A top-level line that is a directive other than [Host]. *)
Definition notHost (line : Line) : bool :=
  match line with
  | Comment _ => false
  | Directive param _ _ => negb (str_eqb param (lit "Host"))
  end.

(** The probe printed a greeting that names a user: its trimmed output
    starts with [Hi ] and goes on with something else than [!]. *)
Definition greeted (probe : Error + jsstring) : bool :=
  match probe with
  | inl _ => false
  | inr stdout =>
      startsWith (lit "Hi ") (trim stdout)
      && negb (startsWith (lit "Hi !") (trim stdout))
  end.

(** ** Further concrete runs *)

(** A value that is an array of objects, interpolated in a template. *)
Definition object_String_of (v : Value) : jsstring :=
  match v with
  | VStr s => s
  | VArr vs => join (lit ",") (map (fun _ => lit "[object Object]") vs)
  end.

(** [work] declares no [User]. *)
Definition missingUserText : jsstring :=
  text [ "Host home";
         "  HostName gitlab.com";
         "  User git";
         "Host work";
         "  HostName github.com" ]%string.

Definition missingUser : list Line :=
  [ stanza "home" [ kv "HostName" "gitlab.com"; kv "User" "git" ];
    stanza "work" [ kv "HostName" "github.com" ] ].

(** [work] has a key of several values. *)
Definition arrayValueText : jsstring :=
  text [ "Host work";
         "  HostName github.com";
         "  SendEnv LANG LC_ALL";
         "  User git" ]%string.

Definition arrayValue : list Line :=
  [ stanza "work"
      [ kv "HostName" "github.com";
        Directive (lit "SendEnv") (VArr [lit "LANG"; lit "LC_ALL"]) None;
        kv "User" "git" ] ].

(** [twoHostsText] without its comment. *)
Definition twoHostsPlainText : jsstring :=
  text [ "Host work";
         "  HostName github.com";
         "  User git";
         "  IdentityFile ~/.ssh/id_work";
         "Host home";
         "  HostName gitlab.com";
         "  User git" ]%string.

Definition moreTable : JsObj (list Line) :=
  [ (missingUserText, missingUser);
    (arrayValueText, arrayValue);
    (twoHostsPlainText, stripComments twoHosts) ].

Definition more_parse (content : jsstring) : Error + list Line :=
  match own_lookup moreTable content with
  | Some sshFile => inr sshFile
  | None => table_parse content
  end.

Definition more_getSSHConfig (w : World) (path : jsstring) :=
  getSSHConfig home_expandTilde more_parse plain_JSON_stringify
    object_String_of plain_zodError_toString w path.

Definition more_gitSetup (w : World) :=
  gitSetup home_expandTilde more_parse plain_JSON_stringify
    object_String_of plain_zodError_toString w.

Definition more_setup (w : World) :=
  setup home_expandTilde more_parse plain_JSON_stringify
    object_String_of plain_zodError_toString w.

Definition more_hosts (w : World) :=
  hosts home_expandTilde more_parse plain_JSON_stringify
    object_String_of plain_zodError_toString w.

(** The remote query prints a blank line. *)
Definition blankRemoteWorld : World :=
  world (inr (lit "  " ++ [LF])) (Some twoHostsText) [] (inr greeting)
    allSucceed.

(** The repository of [git@home:org/repo.git]; [home] has no identity
    file. *)
Definition homeWorld : World :=
  world (inr (lit "git@home:org/repo.git" ++ [LF])) (Some twoHostsText) []
    (inr greeting) allSucceed.

(** [work]'s public key exists and cannot be read. *)
Definition unreadableKeyWorld : World :=
  let w := workWorld alicePubkey allSucceed in
  {| git_rev_parse := git_rev_parse w;
     git_remote_origin_url := git_remote_origin_url w;
     fs_exists := fs_exists w;
     fs_readFile := fun path =>
       if str_eqb path (lit "/home/me/.ssh/id_work.pub")
       then inl (lit "Error: EACCES: permission denied")
       else fs_readFile w path;
     ssh_T := ssh_T w;
     git_config := git_config w |}.

(** The world [w] where the writes are answered by [answer]. *)
Definition with_git_config (w : World)
    (answer : GitConfigLocation -> jsstring -> jsstring -> option Error)
  : World :=
  {| git_rev_parse := git_rev_parse w;
     git_remote_origin_url := git_remote_origin_url w;
     fs_exists := fs_exists w;
     fs_readFile := fs_readFile w;
     ssh_T := ssh_T w;
     git_config := answer |}.

(** Two runs that end alike after the same commands. *)
Definition same_run {A} (m m' : M A) : Prop :=
  outcome m = outcome m' /\ commands (trace m) = commands (trace m').

Arguments lit : simpl never.

(** ** Facts about strings *)

Lemma str_eqb_eq (a b : jsstring) : str_eqb a b = true <-> a = b.
Proof.
  unfold str_eqb. destruct (list_eq_dec N.eq_dec a b); split; congruence.
Qed.

Lemma str_eqb_refl (a : jsstring) : str_eqb a a = true.
Proof. now apply str_eqb_eq. Qed.

Lemma str_eqb_neq (a b : jsstring) : str_eqb a b = false <-> a <> b.
Proof.
  unfold str_eqb. destruct (list_eq_dec N.eq_dec a b); split; congruence.
Qed.

Lemma str_eqb_sym (a b : jsstring) : str_eqb a b = str_eqb b a.
Proof.
  destruct (str_eqb b a) eqn:E.
  - apply str_eqb_eq in E. subst. apply str_eqb_refl.
  - apply str_eqb_neq in E. apply str_eqb_neq. congruence.
Qed.

Lemma takeWhile_all (p : N -> bool) (s : jsstring) :
  forallb p s = true -> takeWhile p s = s.
Proof.
  induction s as [|c s IH]; simpl; [reflexivity|].
  intros H. apply andb_true_iff in H as [Hc Hs].
  rewrite Hc. now rewrite IH.
Qed.

Lemma takeWhile_stop (p : N -> bool) (a b : jsstring) (x : N) :
  forallb p a = true -> p x = false -> takeWhile p (a ++ x :: b) = a.
Proof.
  induction a as [|c a IH]; simpl; intros Ha Hx.
  - now rewrite Hx.
  - apply andb_true_iff in Ha as [Hc Ha]. rewrite Hc. now rewrite IH.
Qed.

Lemma isnt_forallb (sep : N) (s : jsstring) :
  forallb (isnt sep) s = true <-> ~ In sep s.
Proof.
  unfold isnt. induction s as [|c s IH]; simpl.
  - tauto.
  - rewrite andb_true_iff, IH, negb_true_iff, N.eqb_neq. intuition congruence.
Qed.

Lemma split_not_nil (sep : N) (s : jsstring) : split sep s <> [].
Proof.
  destruct s as [|c s]; simpl; [discriminate|].
  destruct (N.eqb c sep); [discriminate|].
  destruct (split sep s); discriminate.
Qed.

Lemma split_no_sep (sep : N) (s : jsstring) :
  ~ In sep s -> split sep s = [s].
Proof.
  induction s as [|c s IH]; simpl; intros H; [reflexivity|].
  destruct (N.eqb_spec c sep) as [->|_]; [tauto|].
  rewrite IH by tauto. reflexivity.
Qed.

Lemma split_app (sep : N) (a b : jsstring) :
  split sep (a ++ sep :: b) = split sep a ++ split sep b.
Proof.
  induction a as [|c a IH]; simpl.
  - now rewrite N.eqb_refl.
  - destruct (N.eqb c sep); rewrite IH; [reflexivity|].
    destruct (split sep a) eqn:E; [now apply split_not_nil in E|reflexivity].
Qed.

Lemma last_sep_decompose (sep : N) (s : jsstring) :
  ~ In sep s \/ exists pre e, s = pre ++ sep :: e /\ ~ In sep e.
Proof.
  induction s as [|c s [IH|(pre & e & -> & He)]].
  - left. simpl. tauto.
  - destruct (N.eq_dec c sep) as [->|Hc].
    + right. exists [], s. split; [reflexivity|assumption].
    + left. simpl. intuition congruence.
  - right. exists (c :: pre), e. split; [reflexivity|assumption].
Qed.

Lemma pop_app (l1 l2 : list jsstring) : l2 <> [] -> pop (l1 ++ l2) = pop l2.
Proof.
  intros H. induction l1 as [|x l1 IH]; [reflexivity|].
  simpl. rewrite IH. destruct (l1 ++ l2) eqn:E; [|reflexivity].
  apply app_eq_nil in E. tauto.
Qed.

Lemma lastPiece_no_sep (sep : N) (s : jsstring) :
  ~ In sep s -> lastPiece sep s = s.
Proof.
  intros H. unfold lastPiece. rewrite takeWhile_all.
  - apply rev_involutive.
  - apply isnt_forallb. now rewrite <- in_rev.
Qed.

Lemma lastPiece_app (sep : N) (pre e : jsstring) :
  ~ In sep e -> lastPiece sep (pre ++ sep :: e) = e.
Proof.
  intros H. unfold lastPiece.
  rewrite rev_app_distr. simpl. rewrite <- app_assoc. simpl.
  rewrite takeWhile_stop.
  - apply rev_involutive.
  - apply isnt_forallb. now rewrite <- in_rev.
  - unfold isnt. now rewrite N.eqb_refl.
Qed.

Lemma pop_split (sep : N) (s : jsstring) :
  pop (split sep s) = Some (lastPiece sep s).
Proof.
  destruct (last_sep_decompose sep s) as [H|(pre & e & -> & He)].
  - rewrite split_no_sep, lastPiece_no_sep by assumption. reflexivity.
  - rewrite split_app, pop_app by apply split_not_nil.
    rewrite split_no_sep, lastPiece_app by assumption. reflexivity.
Qed.

Lemma at0_split (sep : N) (s : jsstring) :
  at0 (split sep s) = takeWhile (isnt sep) s.
Proof.
  unfold isnt. induction s as [|c s IH]; simpl; [reflexivity|].
  destruct (N.eqb c sep); simpl; [reflexivity|].
  rewrite <- IH. destruct (split sep s) eqn:E; [|reflexivity].
  now apply split_not_nil in E.
Qed.

Lemma at0_split_app (sep : N) (h rest : jsstring) :
  ~ In sep h -> at0 (split sep (h ++ sep :: rest)) = h.
Proof.
  intros H. rewrite at0_split. apply takeWhile_stop.
  - now apply isnt_forallb.
  - unfold isnt. now rewrite N.eqb_refl.
Qed.

Lemma at0_split_no_sep (sep : N) (s : jsstring) :
  ~ In sep s -> at0 (split sep s) = s.
Proof. intros H. now rewrite split_no_sep. Qed.

Lemma dropWhile_head (p : N -> bool) (s : jsstring) :
  dropWhile p s = [] \/
  exists c s', dropWhile p s = c :: s' /\ p c = false.
Proof.
  induction s as [|c s IH]; simpl; [now left|].
  destruct (p c) eqn:E; [assumption|].
  right. now exists c, s.
Qed.

(** A trimmed text does not end with white space. *)
Lemma trim_last (s : jsstring) :
  trim s = [] \/
  exists pre c, trim s = pre ++ [c] /\ isWhiteSpace c = false.
Proof.
  unfold trim, trimEnd.
  destruct (dropWhile_head isWhiteSpace (rev (trimStart s)))
    as [->|(c & s' & -> & Hc)].
  - now left.
  - right. exists (rev s'), c. simpl. now split.
Qed.

Lemma lastPiece_nonempty (sep : N) (pre : jsstring) (c : N) :
  c <> sep -> lastPiece sep (pre ++ [c]) <> [].
Proof.
  intros H. unfold lastPiece. rewrite rev_app_distr. simpl.
  unfold isnt at 1. apply N.eqb_neq in H. rewrite H. simpl.
  intros E. now apply app_eq_nil in E as [_ E].
Qed.

Lemma startsWith_app (p s : jsstring) : startsWith p (p ++ s) = true.
Proof.
  induction p as [|c p IH]; simpl; [reflexivity|].
  now rewrite N.eqb_refl.
Qed.

Lemma startsWith_inv (p s : jsstring) :
  startsWith p s = true -> s = p ++ skipn (List.length p) s.
Proof.
  revert s. induction p as [|c p IH]; intros [|d s]; simpl; try easy.
  intros H. apply andb_true_iff in H as [Hc Hs].
  apply N.eqb_eq in Hc. subst. f_equal. now apply IH.
Qed.

(** ** Facts about objects *)

Section JsObjectFacts.
Variable V : Type.
Implicit Types (m : JsObj V) (k : jsstring) (v : V).

Lemma own_lookup_In m k :
  own_lookup m k <> None <-> In k (obj_keys m).
Proof.
  induction m as [|[k' v'] m IH]; simpl.
  - tauto.
  - destruct (str_eqb k' k) eqn:E.
    + apply str_eqb_eq in E. split; [now left|discriminate].
    + apply str_eqb_neq in E. rewrite IH. intuition congruence.
Qed.

Lemma own_lookup_app m1 m2 k :
  own_lookup (m1 ++ m2) k =
  match own_lookup m1 k with
  | Some v => Some v
  | None => own_lookup m2 k
  end.
Proof.
  induction m1 as [|[k' v'] m1 IH]; simpl; [reflexivity|].
  now destruct (str_eqb k' k).
Qed.

Lemma own_lookup_replace m k v k' :
  own_lookup m k <> None ->
  own_lookup (replace_own m k v) k' =
  if str_eqb k k' then Some v else own_lookup m k'.
Proof.
  induction m as [|[k0 v0] m IH]; simpl; [congruence|].
  destruct (str_eqb k0 k) eqn:E; simpl.
  - apply str_eqb_eq in E. subst k0. intros _.
    now destruct (str_eqb k k').
  - intros H. rewrite IH by assumption.
    destruct (str_eqb k k') eqn:E'; [|reflexivity].
    apply str_eqb_eq in E'. subst k'. now rewrite E.
Qed.

Lemma own_lookup_insert_index m n k v k' :
  own_lookup m k = None ->
  own_lookup (insert_index m n k v) k' =
  if str_eqb k k' then Some v else own_lookup m k'.
Proof.
  induction m as [|[k0 v0] m IH]; simpl; [reflexivity|].
  destruct (str_eqb k0 k) eqn:E; [discriminate|]. intros H.
  assert (Hhere : own_lookup ((k, v) :: (k0, v0) :: m) k' =
                  if str_eqb k k' then Some v
                  else if str_eqb k0 k' then Some v0 else own_lookup m k')
    by reflexivity.
  destruct (arrayIndex k0) as [n'|]; [destruct (N.ltb n' n)|];
    try exact Hhere.
  simpl. rewrite IH by assumption.
  destruct (str_eqb k k') eqn:E'; [|reflexivity].
  apply str_eqb_eq in E'. subst k'. now rewrite E.
Qed.

(** Reading back after [m[k] = v]. *)
Lemma own_lookup_set m k v k' :
  str_eqb k (lit "__proto__") = false ->
  own_lookup (obj_set m k v) k' =
  if str_eqb k k' then Some v else own_lookup m k'.
Proof.
  intros Hp. unfold obj_set. rewrite Hp.
  destruct (own_lookup m k) eqn:E.
  - apply own_lookup_replace. congruence.
  - destruct (arrayIndex k).
    + now apply own_lookup_insert_index.
    + rewrite own_lookup_app. simpl.
      destruct (str_eqb k k') eqn:E'.
      * apply str_eqb_eq in E'. subst k'. now rewrite E.
      * now destruct (own_lookup m k').
Qed.

Lemma obj_keys_set m k v k' :
  str_eqb k (lit "__proto__") = false ->
  In k' (obj_keys (obj_set m k v)) <-> k' = k \/ In k' (obj_keys m).
Proof.
  intros Hp. rewrite <- !own_lookup_In, own_lookup_set by assumption.
  destruct (str_eqb k k') eqn:E.
  - apply str_eqb_eq in E. subst. split; [now left|discriminate].
  - apply str_eqb_neq in E. intuition congruence.
Qed.

Lemma inherited_proto : inherited (lit "__proto__") = true.
Proof. reflexivity. Qed.

(** A key that [in] does not find may be assigned like any other. *)
Lemma obj_in_false m k :
  obj_in k m = false ->
  own_lookup m k = None /\ inherited k = false /\
  str_eqb k (lit "__proto__") = false.
Proof.
  unfold obj_in. destruct (own_lookup m k); [discriminate|].
  intros H. repeat split; try assumption.
  apply str_eqb_neq. intros ->. now rewrite inherited_proto in H.
Qed.
End JsObjectFacts.

(** ** [getUsername] *)

Lemma getUsername_captured (w : World) (sshHost stdout : jsstring) :
  ssh_T w sshHost = inr stdout ->
  getUsername w sshHost =
  let output := trim stdout in
  if startsWith (lit "ssh: Could not resolve") output then
    ([Shell (SshT sshHost); Log output], inr None)
  else if startsWith (lit "Hi ") output then
    ([Shell (SshT sshHost)],
     inr (Some (at0 (split BANG (substring 3 output)))))
  else
    ([Shell (SshT sshHost);
      Log (lit "Unable to discern output ssh -T output format");
      Log output], inr None).
Proof.
  intros H. unfold getUsername, sh_text. rewrite H.
  cbv beta iota zeta delta [bind try_catch].
  destruct (startsWith (lit "ssh: Could not resolve") (trim stdout));
    [reflexivity|].
  destruct (startsWith (lit "Hi ") (trim stdout)); reflexivity.
Qed.

Lemma getUsername_thrown (w : World) (sshHost : jsstring) (error : Error) :
  ssh_T w sshHost = inl error ->
  getUsername w sshHost =
  ([Shell (SshT sshHost); Log (lit "unable to get username due to");
    Log error], inr None).
Proof.
  intros H. unfold getUsername, sh_text. rewrite H. reflexivity.
Qed.

(** Whatever the probe does, [getUsername] returns and writes nothing. *)
Lemma getUsername_returns (w : World) (sshHost : jsstring) :
  exists t u, getUsername w sshHost = (t, inr u) /\ writes t = [].
Proof.
  destruct (ssh_T w sshHost) as [e|stdout] eqn:E.
  - rewrite (getUsername_thrown _ _ E). now eexists _, _.
  - rewrite (getUsername_captured _ _ E). cbv zeta.
    destruct (startsWith _ _); [now eexists _, _|].
    destruct (startsWith _ _); now eexists _, _.
Qed.

(** The two recognised prefixes exclude each other. *)
Lemma marker_not_greeting (output : jsstring) :
  startsWith (lit "Hi ") output = true ->
  startsWith (lit "ssh: Could not resolve") output = false.
Proof.
  destruct output as [|c output]; [discriminate|].
  intros H. apply andb_true_iff in H as [Hc _].
  apply N.eqb_eq in Hc. now subst c.
Qed.

(** C3.  On the captured text of the probe, trimmed, [getUsername] returns
    without raising and classifies the text in three shapes: one that starts
    with the resolution-failure marker gives no username; one that starts
    with [Hi ] gives the text between that prefix and the first [!]; any
    other gives no username.  So [Hi bob! You've successfully
    authenticated...] gives [bob]. *)
Theorem getUsername_three_shapes (w : World) (sshHost stdout : jsstring)
    (Hprobe : ssh_T w sshHost = inr stdout) :
  let output := trim stdout in
  let result := outcome (getUsername w sshHost) in
  (forall w' sshHost',
     exists username, outcome (getUsername w' sshHost') = inr username)
  /\ (startsWith (lit "ssh: Could not resolve") output = true ->
      result = inr None)
  /\ (startsWith (lit "Hi ") output = true ->
      result = inr (Some (takeWhile (isnt BANG) (substring 3 output)))
      /\ forall name rest,
           output = lit "Hi " ++ name ++ BANG :: rest -> ~ In BANG name ->
           result = inr (Some name))
  /\ (startsWith (lit "ssh: Could not resolve") output = false ->
      startsWith (lit "Hi ") output = false ->
      result = inr None)
  /\ (stdout = lit "Hi bob! You've successfully authenticated..." ->
      result = inr (Some (lit "bob"))).
Proof.
  intros output result. subst result.
  split.
  { intros w' sshHost'.
    destruct (getUsername_returns w' sshHost') as (t & u & -> & _).
    now exists u. }
  unfold outcome.
  rewrite (getUsername_captured _ _ Hprobe). fold output. cbv zeta.
  split; [|split; [|split]].
  - now intros ->.
  - intros Hhi. rewrite (marker_not_greeting _ Hhi), Hhi. simpl snd.
    rewrite at0_split. split; [reflexivity|].
    intros name rest E Hname. do 2 f_equal.
    rewrite E. unfold substring.
    change (skipn 3 (lit "Hi " ++ name ++ BANG :: rest))
      with (name ++ BANG :: rest).
    apply takeWhile_stop; [now apply isnt_forallb|].
    unfold isnt. now rewrite N.eqb_refl.
  - now intros -> ->.
  - intros E. subst output. rewrite E. reflexivity.
Qed.

(** C10.  When the trimmed output of the probe starts with [Hi ] and holds
    no [!], [getUsername] returns all of what follows the prefix, a text
    that is not empty, and not an absent username. *)
Theorem getUsername_no_bang (w : World) (sshHost stdout : jsstring)
    (Hprobe : ssh_T w sshHost = inr stdout)
    (Hhi : startsWith (lit "Hi ") (trim stdout) = true)
    (Hbang : ~ In BANG (trim stdout)) :
  outcome (getUsername w sshHost) = inr (Some (substring 3 (trim stdout)))
  /\ substring 3 (trim stdout) <> []
  /\ outcome (getUsername w sshHost) <> inr None.
Proof.
  assert (Hout : outcome (getUsername w sshHost)
                 = inr (Some (substring 3 (trim stdout)))).
  { unfold outcome. rewrite (getUsername_captured _ _ Hprobe). cbv zeta.
    rewrite (marker_not_greeting _ Hhi), Hhi. simpl snd.
    rewrite at0_split_no_sep; [reflexivity|].
    intros Hin. apply Hbang.
    rewrite <- (firstn_skipn 3 (trim stdout)). apply in_or_app. now right. }
  split; [assumption|]. split; [|rewrite Hout; discriminate].
  pose proof (startsWith_inv _ _ Hhi) as E.
  change (skipn (List.length (lit "Hi ")) (trim stdout))
    with (substring 3 (trim stdout)) in E.
  intros Hnil. rewrite Hnil, app_nil_r in E.
  destruct (trim_last stdout) as [H0|(pre & c & Hpre & Hc)].
  - rewrite H0 in E. discriminate.
  - rewrite E in Hpre.
    change (lit "Hi ") with ([72; 105] ++ [SPACE])%N in Hpre.
    apply app_inj_tail in Hpre as [_ <-]. discriminate.
Qed.

(** ** [getSSHConfig] *)

Lemma pop_none (l : list jsstring) : pop l = None <-> l = [].
Proof.
  split; [|now intros ->].
  induction l as [|a l IH]; [reflexivity|].
  destruct l as [|b l]; [discriminate|].
  intros H. change (pop (b :: l) = None) in H. apply IH in H. discriminate.
Qed.

Lemma pop_cons (x : jsstring) (l : list jsstring) :
  pop (x :: l) = match pop l with Some y => Some y | None => Some x end.
Proof.
  destruct l as [|y l]; [reflexivity|].
  change (pop (x :: y :: l)) with (pop (y :: l)).
  destruct (pop (y :: l)) eqn:E; [reflexivity|].
  apply pop_none in E. discriminate.
Qed.

Section ParserFacts.
Variable JSON_stringify : Value -> jsstring.
Variable String_of : Value -> jsstring.
Variable zodError_toString : JsObj jsstring -> jsstring.
Variable sshConfigPath : jsstring.

Local Abbreviation sectionLoop' := (sectionLoop String_of sshConfigPath).
Local Abbreviation hostsLoop' :=
  (hostsLoop JSON_stringify String_of zodError_toString sshConfigPath).

(** What [keyValues] holds after the inner loop. *)
Lemma sectionLoop_stringValued (host : jsstring) (config : list Line) :
  forallb stringValued config = true ->
  forall keyValues, exists keyValues',
    sectionLoop' host config keyValues = Ok keyValues'
    /\ forall key, str_eqb key (lit "__proto__") = false ->
         own_lookup keyValues' key =
         match lastDeclared key config with
         | Some v => Some v
         | None => own_lookup keyValues key
         end.
Proof.
  unfold lastDeclared.
  induction config as [|[c|param [s|vs] cfg] config IH]; simpl; intros H kv.
  - exists kv. split; [reflexivity|]. reflexivity.
  - apply IH. assumption.
  - destruct (IH H (obj_set kv param s)) as (kv' & Hrun & Hkv').
    exists kv'. split; [assumption|]. intros key Hkey.
    rewrite (Hkv' key Hkey).
    destruct (str_eqb param key) eqn:E.
    + apply str_eqb_eq in E. subst param. rewrite pop_cons.
      destruct (pop (declaredValues key config)); [reflexivity|].
      rewrite own_lookup_set by assumption. now rewrite str_eqb_refl.
    + destruct (pop (declaredValues key config)); [reflexivity|].
      unfold obj_set.
      destruct (str_eqb param (lit "__proto__")) eqn:Ep; [reflexivity|].
      fold (obj_set kv param s).
      assert (Hset := own_lookup_set kv param s key Ep).
      unfold obj_set in Hset. rewrite Ep in Hset.
      rewrite Hset, E. reflexivity.
  - discriminate.
Qed.

(** One turn of the outer loop that does not fail. *)
Lemma hostsLoop_cons_ok (line : Line) (rest : list Line)
    (hosts hosts' : SSHConfigHosts) :
  hostsLoop' (line :: rest) hosts = Ok hosts' ->
  (exists c, line = Comment c /\ hostsLoop' rest hosts = Ok hosts')
  \/ exists host config keyValues data,
       line = Directive (lit "Host") (VStr host) (Some config)
       /\ obj_in host hosts = false
       /\ sectionLoop' host config [] = Ok keyValues
       /\ safeParse keyValues = Some data
       /\ hostsLoop' rest (obj_set hosts host data) = Ok hosts'.
Proof.
  destruct line as [c|param [host|vs] [config|]]; simpl.
  - intros H. left. now exists c.
  - destruct (str_eqb param (lit "Host")) eqn:Ep; simpl; [|discriminate].
    apply str_eqb_eq in Ep. subst param.
    destruct (obj_in host hosts) eqn:Ein; [discriminate|].
    destruct (sectionLoop' host config []) as [kv|] eqn:Esec;
      [|discriminate].
    destruct (safeParse kv) as [data|] eqn:Ezod; [|discriminate].
    intros H. right. now exists host, config, kv, data.
  - destruct (str_eqb param (lit "Host")); simpl; discriminate.
  - destruct (str_eqb param (lit "Host")); simpl; discriminate.
  - destruct (str_eqb param (lit "Host")); simpl; discriminate.
Qed.

Lemma aliases_host (host : jsstring) (config : option (list Line))
    (rest : list Line) :
  aliases (Directive (lit "Host") (VStr host) config :: rest)
  = host :: aliases rest.
Proof. cbn [aliases]. now rewrite str_eqb_refl. Qed.

(** A document the loop accepts declares each alias once, and none that
    [hosts] already had. *)
Lemma hostsLoop_ok_unique (sshFile : list Line) :
  forall hosts hosts',
    hostsLoop' sshFile hosts = Ok hosts' ->
    NoDup (aliases sshFile)
    /\ (forall a, In a (aliases sshFile) -> own_lookup hosts a = None)
    /\ (forall a, In a (aliases sshFile) -> own_lookup hosts' a <> None)
    /\ (forall a, own_lookup hosts a <> None -> own_lookup hosts' a <> None).
Proof.
  induction sshFile as [|line rest IH]; intros hosts hosts' H.
  - simpl in H. injection H as <-. simpl.
    repeat split; try tauto. constructor.
  - apply hostsLoop_cons_ok in H
      as [(c & -> & H)|(host & config & kv & data & -> & Hin & _ & _ & H)].
    + simpl. now apply IH.
    + rewrite aliases_host.
      apply IH in H as (Hnd & Hfresh & Hdecl & Hkeep).
      apply obj_in_false in Hin as (Hown & _ & Hproto).
      assert (Hset : forall a, own_lookup (obj_set hosts host data) a =
                if str_eqb host a then Some data else own_lookup hosts a)
        by (intros a; now apply own_lookup_set).
      assert (Hhost : ~ In host (aliases rest)).
      { intros Hi. apply Hfresh in Hi.
        rewrite Hset, str_eqb_refl in Hi. discriminate. }
      repeat split.
      * now constructor.
      * intros a [<-|Ha]; [assumption|].
        specialize (Hfresh a Ha). rewrite Hset in Hfresh.
        now destruct (str_eqb host a).
      * intros a [<-|Ha]; [|now apply Hdecl].
        apply Hkeep. rewrite Hset, str_eqb_refl. discriminate.
      * intros a Ha. apply Hkeep. rewrite Hset.
        now destruct (str_eqb host a).
Qed.

Lemma hostsLoop_app (pre rest : list Line) :
  forall hosts,
    hostsLoop' (pre ++ rest) hosts =
    match hostsLoop' pre hosts with
    | Ok hosts' => hostsLoop' rest hosts'
    | Err error reason silent => Err error reason silent
    end.
Proof.
  induction pre as [|[c|param [host|vs] [config|]] pre IH]; intros hosts;
    simpl; try reflexivity; try apply IH;
    destruct (negb (str_eqb param (lit "Host"))); try reflexivity.
  destruct (obj_in host hosts); [reflexivity|].
  destruct (sectionLoop' host config []); [|reflexivity].
  destruct (safeParse _); [apply IH|reflexivity].
Qed.

(** A document that declares an alias twice is never accepted. *)
Lemma hostsLoop_duplicate_fails (alias : jsstring) (sshFile : list Line)
    (hosts : SSHConfigHosts) :
  2 <= occurrences alias sshFile ->
  success (hostsLoop' sshFile hosts) = false.
Proof.
  intros Hdup. destruct (hostsLoop' sshFile hosts) eqn:E; [|reflexivity].
  apply hostsLoop_ok_unique in E as (Hnd & _).
  exfalso. unfold occurrences in Hdup.
  pose proof (proj1 (NoDup_count_occ (list_eq_dec N.eq_dec) _) Hnd alias).
  lia.
Qed.

(** The repeat of an alias stops an accepted prefix with the
    duplicate-host error. *)
Lemma hostsLoop_repeat (alias : jsstring) (pre post config : list Line)
    (hosts : SSHConfigHosts) :
  success (hostsLoop' pre hosts) = true ->
  In alias (aliases pre) ->
  hostsLoop'
    (pre ++ Directive (lit "Host") (VStr alias) (Some config) :: post) hosts
  = Err GetSSHConfigError.DuplicateHostError
      (lit "ssh file '" ++ sshConfigPath
       ++ lit "' contains duplicate Hosts named '" ++ alias ++ [QUOTE])
      false.
Proof.
  intros Hok Hin. rewrite hostsLoop_app.
  destruct (hostsLoop' pre hosts) as [hosts'|] eqn:E; [|discriminate].
  apply hostsLoop_ok_unique in E as (_ & _ & Hdecl & _).
  specialize (Hdecl alias Hin).
  cbn [hostsLoop]. rewrite str_eqb_refl. cbn [negb].
  unfold obj_in. destruct (own_lookup hosts' alias); [reflexivity|].
  congruence.
Qed.
Lemma sectionLoop_fresh (host : jsstring) (config : list Line) :
  forallb stringValued config = true ->
  exists keyValues,
    sectionLoop' host config [] = Ok keyValues
    /\ forall key, str_eqb key (lit "__proto__") = false ->
         own_lookup keyValues key = lastDeclared key config.
Proof.
  intros H.
  destruct (sectionLoop_stringValued host config H []) as (kv & Hrun & Hkv).
  exists kv. split; [assumption|]. intros key Hkey.
  rewrite (Hkv key Hkey). now destruct (lastDeclared key config).
Qed.

Lemma declares_lastDeclared (key : jsstring) (config : list Line) :
  declares key config = true -> exists v, lastDeclared key config = Some v.
Proof.
  unfold declares, lastDeclared. intros H.
  destruct (pop (declaredValues key config)) eqn:E; [now eexists|].
  apply pop_none in E. rewrite E in H. discriminate.
Qed.

(** The fields [safeParse] gives a stanza of string-valued keys that
    declares [HostName] and [User]. *)
Lemma safeParse_section (host : jsstring) (config : list Line) :
  forallb stringValued config = true ->
  declares (lit "HostName") config = true ->
  declares (lit "User") config = true ->
  exists keyValues data,
    sectionLoop' host config [] = Ok keyValues
    /\ safeParse keyValues = Some data
    /\ Some (HostName data) = lastDeclared (lit "HostName") config
    /\ Some (User data) = lastDeclared (lit "User") config
    /\ IdentityFile data = lastDeclared (lit "IdentityFile") config.
Proof.
  intros Hstr Hh Hu.
  destruct (sectionLoop_fresh host config Hstr) as (kv & Hrun & Hkv).
  apply declares_lastDeclared in Hh as [h Hh].
  apply declares_lastDeclared in Hu as [u Hu].
  exists kv. unfold safeParse.
  rewrite !Hkv by reflexivity. rewrite Hh, Hu.
  eexists. split; [assumption|]. split; [reflexivity|]. simpl. tauto.
Qed.

(** A well-formed document whose aliases are unique, and none a name
    inherited from [Object.prototype], is accepted whole. *)
Lemma hostsLoop_wellFormed (sshFile : list Line) :
  wellFormed sshFile = true ->
  NoDup (aliases sshFile) ->
  (forall a, In a (aliases sshFile) -> inherited a = false) ->
  forall hosts,
    (forall a, In a (aliases sshFile) -> own_lookup hosts a = None) ->
    exists hosts',
      hostsLoop' sshFile hosts = Ok hosts'
      /\ (forall k, ~ In k (aliases sshFile) ->
          own_lookup hosts' k = own_lookup hosts k)
      /\ (forall alias config,
            In (Directive (lit "Host") (VStr alias) (Some config)) sshFile ->
            exists data,
              own_lookup hosts' alias = Some data
              /\ Some (HostName data) = lastDeclared (lit "HostName") config
              /\ Some (User data) = lastDeclared (lit "User") config
              /\ IdentityFile data
                 = lastDeclared (lit "IdentityFile") config).
Proof.
  induction sshFile as [|[c|param [host|vs] [config|]] rest IH];
    intros Hwf Hnd Hinh hosts Hfresh; try discriminate.
  - exists hosts. split; [reflexivity|]. split; [reflexivity|].
    intros alias config [].
  - simpl in Hwf.
    destruct (IH Hwf Hnd Hinh hosts Hfresh) as (hosts' & Hrun & Hold & Hnew).
    exists hosts'. split; [assumption|]. split; [assumption|].
    intros alias config [Hc|Hin]; [discriminate|]. now apply Hnew.
  - cbn [wellFormed forallb wellFormedStanza] in Hwf.
    apply andb_true_iff in Hwf as [Hline Hwf].
    apply andb_true_iff in Hline as [Hline Hu].
    apply andb_true_iff in Hline as [Hline Hh].
    apply andb_true_iff in Hline as [Hp Hstr].
    apply str_eqb_eq in Hp. subst param. rewrite aliases_host in *.
    apply NoDup_cons_iff in Hnd as [Hhost Hnd].
    destruct (safeParse_section host config Hstr Hh Hu)
      as (kv & data & Hsec & Hzod & Hfields).
    assert (Hin : obj_in host hosts = false).
    { unfold obj_in. rewrite Hfresh by now left. apply Hinh. now left. }
    assert (Hset : forall a, own_lookup (obj_set hosts host data) a =
              if str_eqb host a then Some data else own_lookup hosts a).
    { intros a. apply own_lookup_set. now apply obj_in_false in Hin. }
    destruct (IH Hwf Hnd (fun a Ha => Hinh a (or_intror Ha))
                (obj_set hosts host data))
      as (hosts' & Hrun & Hold & Hnew).
    { intros a Ha. rewrite Hset.
      destruct (str_eqb host a) eqn:E; [|apply Hfresh; now right].
      apply str_eqb_eq in E. now subst a. }
    exists hosts'. split; [|split].
    + cbn [hostsLoop]. rewrite str_eqb_refl. cbn [negb].
      rewrite Hin, Hsec, Hzod. exact Hrun.
    + intros k Hk. rewrite Hold by (simpl in Hk; tauto).
      rewrite Hset. destruct (str_eqb host k) eqn:E; [|reflexivity].
      apply str_eqb_eq in E. subst k. simpl in Hk. tauto.
    + intros alias config' [Hc|Hc]; [|now apply Hnew].
      injection Hc as <- <-. exists data. split; [|exact Hfields].
      rewrite Hold by assumption. now rewrite Hset, str_eqb_refl.
Qed.

(** The stanza behind each alias of a well-formed document. *)
Lemma wellFormed_alias (sshFile : list Line) (alias : jsstring) :
  wellFormed sshFile = true ->
  In alias (aliases sshFile) ->
  exists config,
    In (Directive (lit "Host") (VStr alias) (Some config)) sshFile.
Proof.
  induction sshFile as [|[c|param [host|vs] [config|]] rest IH];
    intros Hwf Hin; try discriminate.
  - destruct Hin.
  - destruct (IH Hwf Hin) as [config H]. exists config. now right.
  - cbn [wellFormed forallb wellFormedStanza] in Hwf.
    apply andb_true_iff in Hwf as [Hline Hwf].
    repeat (apply andb_true_iff in Hline as [Hline _]).
    apply str_eqb_eq in Hline. subst param. rewrite aliases_host in Hin.
    destruct Hin as [<-|Hin].
    + exists config. now left.
    + destruct (IH Hwf Hin) as [config' H]. exists config'. now right.
Qed.

Lemma alias_of_stanza (sshFile : list Line) (alias : jsstring)
    (config : option (list Line)) :
  In (Directive (lit "Host") (VStr alias) config) sshFile ->
  In alias (aliases sshFile).
Proof.
  induction sshFile as [|line rest IH]; [intros []|intros [Hc|Hin]].
  - subst line. rewrite aliases_host. now left.
  - specialize (IH Hin). destruct line as [c|param [host|vs] cfg]; simpl;
      try assumption.
    destruct (str_eqb param (lit "Host")); [now right|assumption].
Qed.
End ParserFacts.

Section ParserClaims.
Variable expandTilde : jsstring -> jsstring.
Variable SSHConfig_parse : jsstring -> Error + list Line.
Variable JSON_stringify : Value -> jsstring.
Variable String_of : Value -> jsstring.
Variable zodError_toString : JsObj jsstring -> jsstring.

Local Abbreviation getSSHConfig' :=
  (getSSHConfig expandTilde SSHConfig_parse JSON_stringify String_of
     zodError_toString).
Local Abbreviation hostsLoop' :=
  (hostsLoop JSON_stringify String_of zodError_toString).

(** Once the file is read and parsed, [getSSHConfig] is its outer loop. *)
Lemma getSSHConfig_parsed (w : World) (path content : jsstring)
    (sshFile : list Line) :
  fs_exists w (expandTilde path) = true ->
  fs_readFile w (expandTilde path) = inr content ->
  SSHConfig_parse content = inr sshFile ->
  getSSHConfig' w path = hostsLoop' (expandTilde path) sshFile [].
Proof.
  intros He Hr Hp. unfold getSSHConfig. cbv zeta.
  now rewrite He, Hr, Hp.
Qed.

Lemma getSSHConfig_missing (w : World) (path : jsstring) :
  fs_exists w (expandTilde path) = false ->
  getSSHConfig' w path =
  Err GetSSHConfigError.SSHConfigFileMissingError
    (lit "No file found at " ++ expandTilde path) false.
Proof.
  intros He. unfold getSSHConfig. cbv zeta. now rewrite He.
Qed.

(** C4, as the code has it.  A document that declares a host alias twice is
    never accepted, wherever the two declarations are; the failure is the
    duplicate-host error naming the alias when the lines before the repeat
    are accepted, the first line that fails a check deciding the error. *)
Theorem duplicate_alias_fails (w : World) (path content : jsstring)
    (sshFile : list Line) (alias : jsstring)
    (Hexists : fs_exists w (expandTilde path) = true)
    (Hread : fs_readFile w (expandTilde path) = inr content)
    (Hparse : SSHConfig_parse content = inr sshFile)
    (Hdup : 2 <= occurrences alias sshFile) :
  success (getSSHConfig' w path) = false
  /\ value_of (getSSHConfig' w path) = None
  /\ forall pre config post,
       sshFile
       = pre ++ Directive (lit "Host") (VStr alias) (Some config) :: post ->
       In alias (aliases pre) ->
       success (hostsLoop' (expandTilde path) pre []) = true ->
       getSSHConfig' w path
       = Err GetSSHConfigError.DuplicateHostError
           (lit "ssh file '" ++ expandTilde path
            ++ lit "' contains duplicate Hosts named '" ++ alias ++ [QUOTE])
           false.
Proof.
  rewrite (getSSHConfig_parsed _ _ Hexists Hread Hparse).
  pose proof (hostsLoop_duplicate_fails JSON_stringify String_of
                zodError_toString (expandTilde path) alias sshFile [] Hdup)
    as Hfail.
  split; [assumption|]. split.
  - destruct (hostsLoop' (expandTilde path) sshFile []);
      [discriminate|reflexivity].
  - intros pre config post -> Hin Hok. now apply hostsLoop_repeat.
Qed.

(** C7, as the code has it.  A well-formed document with unique host
    aliases, none of them the name of a member of [Object.prototype], is
    accepted; the mapping has exactly the declared aliases as keys, and each
    entry holds, unchanged, the value its stanza declares last for
    [HostName], for [User] and for [IdentityFile] (the declared value, when
    the stanza declares the key once; no identity file when it declares
    none).  A failure carries no mapping. *)
Theorem getSSHConfig_lossless (w : World) (path content : jsstring)
    (sshFile : list Line)
    (Hexists : fs_exists w (expandTilde path) = true)
    (Hread : fs_readFile w (expandTilde path) = inr content)
    (Hparse : SSHConfig_parse content = inr sshFile)
    (Hwf : wellFormed sshFile = true)
    (Hunique : NoDup (aliases sshFile))
    (Hnames : forall alias, In alias (aliases sshFile) ->
                inherited alias = false) :
  (exists hosts,
     getSSHConfig' w path = Ok hosts
     /\ (forall alias, In alias (obj_keys hosts) <-> In alias (aliases sshFile))
     /\ forall alias config,
          In (Directive (lit "Host") (VStr alias) (Some config)) sshFile ->
          exists data,
            own_lookup hosts alias = Some data
            /\ Some (HostName data) = lastDeclared (lit "HostName") config
            /\ Some (User data) = lastDeclared (lit "User") config
            /\ IdentityFile data = lastDeclared (lit "IdentityFile") config
            /\ forall key v, declaredValues key config = [v] ->
                 lastDeclared key config = Some v)
  /\ forall w' path',
       success (getSSHConfig' w' path') = false ->
       value_of (getSSHConfig' w' path') = None.
Proof.
  split.
  - rewrite (getSSHConfig_parsed _ _ Hexists Hread Hparse).
    destruct (hostsLoop_wellFormed JSON_stringify String_of zodError_toString
                (expandTilde path) sshFile Hwf Hunique Hnames [])
      as (hosts & Hrun & Hold & Hnew); [reflexivity|].
    exists hosts. split; [assumption|]. split.
    + intros alias. rewrite <- own_lookup_In. split.
      * intros Hown.
        destruct (in_dec (list_eq_dec N.eq_dec) alias (aliases sshFile))
          as [Hin|Hout]; [assumption|].
        rewrite (Hold alias Hout) in Hown. now contradiction Hown.
      * intros Hin.
        destruct (wellFormed_alias sshFile alias Hwf Hin) as [config Hc].
        destruct (Hnew alias config Hc) as (data & -> & _). discriminate.
    + intros alias config Hc.
      destruct (Hnew alias config Hc) as (data & Hd & Hh & Hu & Hi).
      exists data. repeat split; try assumption.
      intros key v E. unfold lastDeclared. now rewrite E.
  - intros w' path'. now destruct (getSSHConfig' w' path').
Qed.
End ParserClaims.

(** ** The monad and the helpers of [gitSetup] *)

Lemma truthy_some (s : jsstring) : s <> [] -> truthy (Some s) = Some s.
Proof. destruct s; [congruence|reflexivity]. Qed.

Lemma truthy_inv (x : option jsstring) (s : jsstring) :
  truthy x = Some s -> x = Some s /\ s <> [].
Proof.
  destruct x as [[|c x]|]; simpl; try discriminate.
  intros H. injection H as <-. split; [reflexivity|discriminate].
Qed.

Lemma truthy_none (x : option jsstring) :
  truthy x = None -> x = None \/ x = Some [].
Proof. destruct x as [[|c x]|]; simpl; try discriminate; tauto. Qed.

Lemma outcome_bind {A B} (m : M A) (f : A -> M B) :
  outcome (bind m f) =
  match outcome m with
  | inl e => inl e
  | inr a => outcome (f a)
  end.
Proof.
  destruct m as [t [e|a]]; [reflexivity|].
  unfold outcome. simpl. now destruct (f a).
Qed.

Lemma trace_bind {A B} (m : M A) (f : A -> M B) :
  trace (bind m f) =
  trace m ++ match outcome m with
             | inl _ => []
             | inr a => trace (f a)
             end.
Proof.
  destruct m as [t [e|a]]; simpl.
  - now rewrite app_nil_r.
  - unfold trace. simpl. now destruct (f a).
Qed.

Lemma writes_app (t1 t2 : list Event) :
  writes (t1 ++ t2) = writes t1 ++ writes t2.
Proof.
  induction t1 as [|[[| |h|location k v]|msg] t1 IH]; simpl;
    now rewrite ?IH.
Qed.

Lemma isGitRepository_inside (w : World) :
  git_rev_parse w = None ->
  isGitRepository w = ([Shell GitRevParse], inr true).
Proof. intros H. unfold isGitRepository, sh. now rewrite H. Qed.

Lemma isGitRepository_outside (w : World) (error : Error) :
  git_rev_parse w = Some error ->
  isGitRepository w = ([Shell GitRevParse; Log error], inr false).
Proof. intros H. unfold isGitRepository, sh. now rewrite H. Qed.

Lemma getGitRemoteOrigin_text (w : World) (out : jsstring) :
  git_remote_origin_url w = inr out ->
  getGitRemoteOrigin w
  = ([Shell GitConfigGetRemoteOriginUrl], inr (Some (trim out))).
Proof. intros H. unfold getGitRemoteOrigin, sh_text. now rewrite H. Qed.

(** What one write does: the command is attempted, its outcome logged, and
    [setGitValue] returns either way. *)
Lemma setGitValue_run (w : World) (k v : jsstring)
    (location : GitConfigLocation) :
  setGitValue w k v location =
  match git_config w location k v with
  | None =>
      ([Shell (GitConfigSet location k v);
        Log (prefix location ++ lit " " ++ k ++ lit "=" ++ v)],
       inr (Ok true))
  | Some error =>
      let errorStr :=
        lit "unable to set git config key of " ++ [DQUOTE] ++ k
        ++ [DQUOTE] ++ lit " to " ++ [DQUOTE] ++ v ++ [DQUOTE]
        ++ lit " due to" ++ [LF] ++ error in
      ([Shell (GitConfigSet location k v); Log errorStr],
       inr (Err false errorStr false))
  end.
Proof.
  unfold setGitValue, sh. now destruct (git_config w location k v).
Qed.

Lemma setGitValue_returns (w : World) (k v : jsstring)
    (location : GitConfigLocation) :
  (exists r, outcome (setGitValue w k v location) = inr r)
  /\ writes (trace (setGitValue w k v location)) = [(location, k, v)].
Proof.
  rewrite setGitValue_run.
  destruct (git_config w location k v); split; try reflexivity;
    now eexists.
Qed.

(** After a write, whatever its outcome, the program goes on. *)
Lemma bind_setGitValue {B} (w : World) (k v : jsstring)
    (location : GitConfigLocation) (rest : M B) :
  outcome (setGitValue w k v location ;; rest) = outcome rest
  /\ writes (trace (setGitValue w k v location ;; rest))
     = (location, k, v) :: writes (trace rest).
Proof.
  rewrite outcome_bind, trace_bind, writes_app.
  destruct (setGitValue_returns w k v location) as [[r ->] ->].
  now split.
Qed.

Lemma never_bind {A} (kind : GitSetupError.t) (m : M A)
    (f : A -> M (Result bool GitSetupError.t)) :
  (forall a, never kind (f a)) -> never kind (bind m f).
Proof.
  intros H reason silent. rewrite outcome_bind.
  destruct (outcome m) as [e|a]; [discriminate|]. apply H.
Qed.

Lemma never_ret_Err (kind kind' : GitSetupError.t) (reason : jsstring)
    (silent : bool) :
  kind' <> kind -> never kind (ret (Err kind' reason silent)).
Proof. intros H r s E. injection E as E _ _. contradiction. Qed.

Lemma never_ret_Ok (kind : GitSetupError.t) (v : bool) :
  never kind (ret (Ok v)).
Proof. intros r s E. discriminate. Qed.

Lemma outcome_bind_pair {A B} (t : list Event) (a : A) (f : A -> M B) :
  outcome (bind (t, inr a) f) = outcome (f a).
Proof. now rewrite outcome_bind. Qed.

Lemma writes_bind_pair {A B} (t : list Event) (a : A) (f : A -> M B) :
  writes (trace (bind (t, inr a) f)) = writes t ++ writes (trace (f a)).
Proof. now rewrite trace_bind, writes_app. Qed.

(** ** [gitSetup] *)

Section SetupClaims.
Variable expandTilde : jsstring -> jsstring.
Variable SSHConfig_parse : jsstring -> Error + list Line.
Variable JSON_stringify : Value -> jsstring.
Variable String_of : Value -> jsstring.
Variable zodError_toString : JsObj jsstring -> jsstring.

Local Abbreviation getSSHConfig' :=
  (getSSHConfig expandTilde SSHConfig_parse JSON_stringify String_of
     zodError_toString).
Local Abbreviation gitSetup' :=
  (gitSetup expandTilde SSHConfig_parse JSON_stringify String_of
     zodError_toString).

(** Stages 1 and 2 pass. *)
Ltac enter Hrepo Hremote Hne :=
  unfold gitSetup;
  rewrite (isGitRepository_inside _ Hrepo);
  rewrite ?outcome_bind_pair, ?writes_bind_pair; cbn [negb];
  rewrite (getGitRemoteOrigin_text _ Hremote);
  rewrite ?outcome_bind_pair, ?writes_bind_pair;
  rewrite (truthy_some Hne).

Lemma gitSetup_not_ssh (w : World) (out : jsstring) :
  git_rev_parse w = None ->
  git_remote_origin_url w = inr out ->
  trim out <> [] ->
  startsWith (lit "git@") (trim out) = false ->
  outcome (gitSetup' w)
  = inr (Err GitSetupError.RemoteOriginIsNotSSHError
           (lit "Remote origin '" ++ trim out
            ++ lit "' isn't an ssh-based origin") false).
Proof.
  intros Hrepo Hremote Hne Hssh. enter Hrepo Hremote Hne.
  rewrite Hssh. reflexivity.
Qed.

(** Stage 3 passes and the configuration loads. *)
Ltac config_loaded Hssh Hcfg :=
  rewrite Hssh; cbn [negb]; cbv zeta; rewrite Hcfg.

(** Stages 5 and 6 pass: the host is an own key with an identity file whose
    public key exists. *)
Ltac identity Hown Hidf Hidf_ne Hexists :=
  unfold obj_in, obj_get; rewrite Hown; cbn [negb hostConfig_IdentityFile];
  unfold ret at 1; rewrite ?outcome_bind_pair, ?writes_bind_pair;
  rewrite Hidf, (truthy_some Hidf_ne), Hexists; cbn [negb].

Lemma gitSetup_config_failed (w : World) (out : jsstring)
    (error : GetSSHConfigError.t) (reason : jsstring) (silent : bool) :
  git_rev_parse w = None ->
  git_remote_origin_url w = inr out ->
  trim out <> [] ->
  startsWith (lit "git@") (trim out) = true ->
  getSSHConfig' w defaultSSHConfigPath = Err error reason silent ->
  outcome (gitSetup' w)
  = inr (Err GitSetupError.SSHConfigFileMalformedError
           (GetSSHConfigError.to_string error ++ lit ": " ++ reason) false).
Proof.
  intros Hrepo Hremote Hne Hssh Hcfg. enter Hrepo Hremote Hne.
  config_loaded Hssh Hcfg. reflexivity.
Qed.

(** When [in] does not find the host key, the failure lists every alias of
    the mapping. *)
Lemma gitSetup_host_missing (w : World) (out : jsstring)
    (hosts : SSHConfigHosts) :
  git_rev_parse w = None ->
  git_remote_origin_url w = inr out ->
  trim out <> [] ->
  startsWith (lit "git@") (trim out) = true ->
  getSSHConfig' w defaultSSHConfigPath = Ok hosts ->
  obj_in (sshHostOf (trim out)) hosts = false ->
  outcome (gitSetup' w)
  = inr (Err GitSetupError.SSHConfigHostMissingError
           (join [LF]
              ([ lit "No existing ssh config entry for the origin remote host '"
                   ++ sshHostOf (trim out) ++ [QUOTE];
                 lit "Existing Hosts are" ]
               ++ obj_keys hosts)) false).
Proof.
  intros Hrepo Hremote Hne Hssh Hcfg Hin. enter Hrepo Hremote Hne.
  config_loaded Hssh Hcfg. rewrite Hin. reflexivity.
Qed.

(** A host key that is neither an alias of the mapping nor a name inherited
    from [Object.prototype] fails the lookup, and every alias is listed. *)
Lemma gitSetup_host_absent (w : World) (out : jsstring)
    (hosts : SSHConfigHosts) :
  git_rev_parse w = None ->
  git_remote_origin_url w = inr out ->
  trim out <> [] ->
  startsWith (lit "git@") (trim out) = true ->
  getSSHConfig' w defaultSSHConfigPath = Ok hosts ->
  ~ In (sshHostOf (trim out)) (obj_keys hosts) ->
  inherited (sshHostOf (trim out)) = false ->
  outcome (gitSetup' w)
  = inr (Err GitSetupError.SSHConfigHostMissingError
           (join [LF]
              ([ lit "No existing ssh config entry for the origin remote host '"
                   ++ sshHostOf (trim out) ++ [QUOTE];
                 lit "Existing Hosts are" ]
               ++ obj_keys hosts)) false).
Proof.
  intros Hrepo Hremote Hne Hssh Hcfg Hkey Hinh.
  apply gitSetup_host_missing; try assumption.
  unfold obj_in.
  destruct (own_lookup hosts (sshHostOf (trim out))) eqn:E; [|assumption].
  exfalso. apply Hkey, own_lookup_In. congruence.
Qed.

(** A host key that is only a name inherited from [Object.prototype]
    passes the [in] test and fails later, for want of an identity file. *)
Lemma gitSetup_host_inherited (w : World) (out : jsstring)
    (hosts : SSHConfigHosts) :
  git_rev_parse w = None ->
  git_remote_origin_url w = inr out ->
  trim out <> [] ->
  startsWith (lit "git@") (trim out) = true ->
  getSSHConfig' w defaultSSHConfigPath = Ok hosts ->
  own_lookup hosts (sshHostOf (trim out)) = None ->
  inherited (sshHostOf (trim out)) = true ->
  outcome (gitSetup' w)
  = inr (Err GitSetupError.SSHPubkeyMissingError
           (lit "No IdentityFile entry found for Host '"
            ++ sshHostOf (trim out) ++ [QUOTE]) false).
Proof.
  intros Hrepo Hremote Hne Hssh Hcfg Hown Hinh. enter Hrepo Hremote Hne.
  config_loaded Hssh Hcfg. unfold obj_in, obj_get. rewrite Hown, Hinh. reflexivity.
Qed.

Lemma gitSetup_no_email (w : World) (out : jsstring) (hosts : SSHConfigHosts)
    (data : SSHConfigSection) (idf content : jsstring) :
  git_rev_parse w = None ->
  git_remote_origin_url w = inr out ->
  trim out <> [] ->
  startsWith (lit "git@") (trim out) = true ->
  getSSHConfig' w defaultSSHConfigPath = Ok hosts ->
  own_lookup hosts (sshHostOf (trim out)) = Some data ->
  IdentityFile data = Some idf ->
  idf <> [] ->
  fs_exists w (expandTilde idf ++ lit ".pub") = true ->
  fs_readFile w (expandTilde idf ++ lit ".pub") = inr content ->
  truthy (emailOf content) = None ->
  outcome (gitSetup' w)
  = inr (Err GitSetupError.SSHPubkeyMalformedError
           (lit "No email found in file " ++ expandTilde idf ++ lit ".pub")
           false).
Proof.
  intros Hrepo Hremote Hne Hssh Hcfg Hown Hidf Hidf_ne Hexists Hread Hemail.
  enter Hrepo Hremote Hne. config_loaded Hssh Hcfg.
  identity Hown Hidf Hidf_ne Hexists.
  unfold readFile. rewrite Hread, outcome_bind_pair. cbv zeta.
  rewrite Hemail. reflexivity.
Qed.

(** The write stage: six writes, whatever each of them answers. *)
Lemma gitSetup_write_stage (w : World) (out : jsstring)
    (hosts : SSHConfigHosts) (data : SSHConfigSection)
    (idf content email username : jsstring) :
  git_rev_parse w = None ->
  git_remote_origin_url w = inr out ->
  trim out <> [] ->
  startsWith (lit "git@") (trim out) = true ->
  getSSHConfig' w defaultSSHConfigPath = Ok hosts ->
  own_lookup hosts (sshHostOf (trim out)) = Some data ->
  IdentityFile data = Some idf ->
  idf <> [] ->
  fs_exists w (expandTilde idf ++ lit ".pub") = true ->
  fs_readFile w (expandTilde idf ++ lit ".pub") = inr content ->
  truthy (emailOf content) = Some email ->
  outcome (getUsername w (sshHostOf (trim out))) = inr (Some username) ->
  username <> [] ->
  writes (trace (gitSetup' w))
  = [ (Global, lit "commit.gpgsign", lit "true");
      (Global, lit "tag.gpgsign", lit "true");
      (Global, lit "gpg.format", lit "ssh");
      (Local, lit "user.signingkey",
       replaceAll BACKSLASH SLASH (expandTilde idf ++ lit ".pub"));
      (Local, lit "user.name", username);
      (Local, lit "user.email", email) ]
  /\ outcome (gitSetup' w) = inr (Ok true).
Proof.
  intros Hrepo Hremote Hne Hssh Hcfg Hown Hidf Hidf_ne Hexists Hread Hemail
    Huser Huser_ne.
  destruct (getUsername_returns w (sshHostOf (trim out)))
    as (t & u & Hrun & Ht).
  rewrite Hrun in Huser. injection Huser as ->.
  split.
  - enter Hrepo Hremote Hne. config_loaded Hssh Hcfg.
    identity Hown Hidf Hidf_ne Hexists.
    unfold readFile. rewrite Hread, writes_bind_pair. cbv zeta.
    rewrite Hemail, Hrun, writes_bind_pair, Ht.
    rewrite (truthy_some Huser_ne).
    repeat rewrite (proj2 (bind_setGitValue _ _ _ _ _)).
    reflexivity.
  - enter Hrepo Hremote Hne. config_loaded Hssh Hcfg.
    identity Hown Hidf Hidf_ne Hexists.
    unfold readFile. rewrite Hread, outcome_bind_pair. cbv zeta.
    rewrite Hemail, Hrun, outcome_bind_pair.
    rewrite (truthy_some Huser_ne).
    repeat rewrite (proj1 (bind_setGitValue _ _ _ _ _)).
    reflexivity.
Qed.

Lemma gitSetup_never_missing (w : World) :
  never GitSetupError.SSHConfigFileMissingError (gitSetup' w).
Proof.
  unfold gitSetup.
  repeat first
    [ apply never_bind; intros ?
    | apply never_ret_Ok
    | apply never_ret_Err; discriminate
    | progress cbv zeta
    | match goal with
      | |- never _ (if ?b then _ else _) => destruct b
      | |- never _ (match ?x with _ => _ end) => destruct x
      end ].
Qed.

(** C9.  When the orchestrator comes to load the SSH configuration and the
    file is missing, it returns the kind [SSHConfigFileMalformedError], with
    the parser's file-missing error and reason wrapped in its reason; no run
    returns the kind [GitSetupError.SSHConfigFileMissingError]. *)
Theorem config_missing_is_malformed (w : World) (out : jsstring)
    (Hrepo : git_rev_parse w = None)
    (Hremote : git_remote_origin_url w = inr out)
    (Hne : trim out <> [])
    (Hssh : startsWith (lit "git@") (trim out) = true)
    (Hmissing : fs_exists w (expandTilde defaultSSHConfigPath) = false) :
  outcome (gitSetup' w)
  = inr (Err GitSetupError.SSHConfigFileMalformedError
           (lit "SSHConfigFileMissingError" ++ lit ": "
            ++ lit "No file found at " ++ expandTilde defaultSSHConfigPath)
           false)
  /\ forall (w' : World) (reason : jsstring) (silent : bool),
       outcome (gitSetup' w')
       <> inr (Err GitSetupError.SSHConfigFileMissingError reason silent).
Proof.
  split.
  - change (lit "SSHConfigFileMissingError")
      with (GetSSHConfigError.to_string
              GetSSHConfigError.SSHConfigFileMissingError).
    eapply gitSetup_config_failed; try eassumption.
    now apply getSSHConfig_missing.
  - intros w'. apply gitSetup_never_missing.
Qed.

(** C6.  With a remote origin configured, a URL that does not start with
    [git@] fails with [RemoteOriginIsNotSSHError]; for one that does, the
    key looked up in the host mapping is what follows [git@] up to the
    first [:], so [git@work:org/repo.git] gives [work]. *)
Theorem remote_origin_host_key (w : World) (out : jsstring)
    (Hrepo : git_rev_parse w = None)
    (Hremote : git_remote_origin_url w = inr out)
    (Hne : trim out <> []) :
  let remoteOrigin := trim out in
  (startsWith (lit "git@") remoteOrigin = false ->
   outcome (gitSetup' w)
   = inr (Err GitSetupError.RemoteOriginIsNotSSHError
            (lit "Remote origin '" ++ remoteOrigin
             ++ lit "' isn't an ssh-based origin") false))
  /\ (startsWith (lit "git@") remoteOrigin = true ->
      sshHostOf remoteOrigin
      = takeWhile (isnt COLON) (substring 4 remoteOrigin)
      /\ (forall host rest,
            remoteOrigin = lit "git@" ++ host ++ COLON :: rest ->
            ~ In COLON host ->
            sshHostOf remoteOrigin = host)
      /\ (forall hosts,
            getSSHConfig' w defaultSSHConfigPath = Ok hosts ->
            obj_in (sshHostOf remoteOrigin) hosts = false ->
            outcome (gitSetup' w)
            = inr (Err GitSetupError.SSHConfigHostMissingError
                     (join [LF]
                        ([ lit "No existing ssh config entry for the origin remote host '"
                             ++ sshHostOf remoteOrigin ++ [QUOTE];
                           lit "Existing Hosts are" ]
                         ++ obj_keys hosts)) false)))
  /\ sshHostOf (lit "git@work:org/repo.git") = lit "work".
Proof.
  intros remoteOrigin. subst remoteOrigin.
  split; [|split].
  - now apply gitSetup_not_ssh.
  - intros Hssh. split; [|split].
    + apply at0_split.
    + intros host rest E Hhost. unfold sshHostOf. rewrite E.
      change (substring 4 (lit "git@" ++ host ++ COLON :: rest))
        with (host ++ COLON :: rest).
      now apply at0_split_app.
    + intros hosts Hcfg Hin. now apply gitSetup_host_missing.
  - reflexivity.
Qed.

(** C2.  Once the orchestration reaches the write stage, the writes
    attempted are these six, in this order, and the result is success,
    whatever [git_config w] answers to each of them. *)
Theorem six_writes_in_order (w : World) (out : jsstring)
    (hosts : SSHConfigHosts) (data : SSHConfigSection)
    (idf content email username : jsstring)
    (Hrepo : git_rev_parse w = None)
    (Hremote : git_remote_origin_url w = inr out)
    (Hne : trim out <> [])
    (Hssh : startsWith (lit "git@") (trim out) = true)
    (Hcfg : getSSHConfig' w defaultSSHConfigPath = Ok hosts)
    (Hown : own_lookup hosts (sshHostOf (trim out)) = Some data)
    (Hidf : IdentityFile data = Some idf)
    (Hidf_ne : idf <> [])
    (Hexists : fs_exists w (expandTilde idf ++ lit ".pub") = true)
    (Hread : fs_readFile w (expandTilde idf ++ lit ".pub") = inr content)
    (Hemail : truthy (emailOf content) = Some email)
    (Huser : outcome (getUsername w (sshHostOf (trim out)))
             = inr (Some username))
    (Huser_ne : username <> []) :
  writes (trace (gitSetup' w))
  = [ (Global, lit "commit.gpgsign", lit "true");
      (Global, lit "tag.gpgsign", lit "true");
      (Global, lit "gpg.format", lit "ssh");
      (Local, lit "user.signingkey",
       replaceAll BACKSLASH SLASH (expandTilde idf ++ lit ".pub"));
      (Local, lit "user.name", username);
      (Local, lit "user.email", email) ]
  /\ outcome (gitSetup' w) = inr (Ok true).
Proof. eapply gitSetup_write_stage; eassumption. Qed.

Lemma emailOf_lastPiece (content : jsstring) :
  emailOf content = Some (lastPiece SPACE (trim content)).
Proof. apply pop_split. Qed.

Lemma emailOf_truthy (content : jsstring) :
  trim content <> [] ->
  truthy (emailOf content) = Some (lastPiece SPACE (trim content))
  /\ lastPiece SPACE (trim content) <> [].
Proof.
  intros Hne. rewrite emailOf_lastPiece.
  assert (H : lastPiece SPACE (trim content) <> []).
  { destruct (trim_last content) as [E|(pre & c & -> & Hc)];
      [contradiction|].
    apply lastPiece_nonempty. intros ->. discriminate. }
  split; [now apply truthy_some|assumption].
Qed.

(** C1, as the code has it.  At the email-extraction stage the resolved
    email is the last token of the trimmed text of the public key file,
    tokens being delimited by the space character U+0020 alone: what
    follows the last space, or the whole trimmed text when it has none.  An
    empty trimmed text fails with [SSHPubkeyMalformedError]; any other
    resolves an email that is not empty, which is the value written to
    [user.email].  The file [ssh-ed25519 AAAAC3...  alice@example.com]
    followed by a line feed gives [alice@example.com]. *)
Theorem email_is_last_space_token (w : World) (out : jsstring)
    (hosts : SSHConfigHosts) (data : SSHConfigSection)
    (idf content : jsstring)
    (Hrepo : git_rev_parse w = None)
    (Hremote : git_remote_origin_url w = inr out)
    (Hne : trim out <> [])
    (Hssh : startsWith (lit "git@") (trim out) = true)
    (Hcfg : getSSHConfig' w defaultSSHConfigPath = Ok hosts)
    (Hown : own_lookup hosts (sshHostOf (trim out)) = Some data)
    (Hidf : IdentityFile data = Some idf)
    (Hidf_ne : idf <> [])
    (Hexists : fs_exists w (expandTilde idf ++ lit ".pub") = true)
    (Hread : fs_readFile w (expandTilde idf ++ lit ".pub") = inr content) :
  let text := trim content in
  let email := lastPiece SPACE text in
  emailOf content = Some email
  /\ (forall pre token,
        text = pre ++ SPACE :: token -> ~ In SPACE token -> email = token)
  /\ (~ In SPACE text -> email = text)
  /\ (text = [] ->
      outcome (gitSetup' w)
      = inr (Err GitSetupError.SSHPubkeyMalformedError
               (lit "No email found in file " ++ expandTilde idf
                ++ lit ".pub") false))
  /\ (text <> [] ->
      email <> []
      /\ forall username,
           outcome (getUsername w (sshHostOf (trim out)))
           = inr (Some username) ->
           username <> [] ->
           In (Local, lit "user.email", email) (writes (trace (gitSetup' w)))
           /\ outcome (gitSetup' w) = inr (Ok true))
  /\ (content = lit "ssh-ed25519 AAAAC3...  alice@example.com" ++ [LF] ->
      email = lit "alice@example.com").
Proof.
  intros text email. subst text email.
  split; [apply emailOf_lastPiece|].
  split; [intros pre token -> Htoken; now apply lastPiece_app|].
  split; [apply lastPiece_no_sep|].
  split; [|split].
  - intros Hnil.
    eapply gitSetup_no_email; try eassumption.
    rewrite emailOf_lastPiece, Hnil. reflexivity.
  - intros Htext. destruct (emailOf_truthy _ Htext) as [Hemail Hemail_ne].
    split; [assumption|]. intros username Huser Huser_ne.
    destruct (gitSetup_write_stage _ Hrepo Hremote Hne Hssh Hcfg Hown Hidf
                Hidf_ne Hexists Hread Hemail Huser Huser_ne) as [-> ->].
    split; [|reflexivity]. simpl. tauto.
  - intros ->. reflexivity.
Qed.

(** ** [listHosts] *)

Lemma insert_index_keys {V} (m : JsObj V) (n : N) (k : jsstring) (v : V) :
  Permutation (obj_keys (insert_index m n k v)) (k :: obj_keys m).
Proof.
  induction m as [|[k' v'] m IH]; simpl; [reflexivity|].
  destruct (arrayIndex k') as [n'|]; [destruct (N.ltb n' n)|];
    try reflexivity.
  simpl. rewrite IH. apply perm_swap.
Qed.

(** Assigning a new key keeps the keys of an object distinct. *)
Lemma obj_set_NoDup {V} (m : JsObj V) (k : jsstring) (v : V) :
  own_lookup m k = None ->
  NoDup (obj_keys m) -> NoDup (obj_keys (obj_set m k v)).
Proof.
  intros Hown Hnd. unfold obj_set.
  destruct (str_eqb k (lit "__proto__")); [assumption|]. rewrite Hown.
  assert (Hk : ~ In k (obj_keys m)).
  { intros Hin. apply own_lookup_In in Hin. contradiction. }
  assert (Hcons : NoDup (k :: obj_keys m)) by now constructor.
  destruct (arrayIndex k) as [n|].
  - eapply Permutation_NoDup; [|exact Hcons].
    symmetry. apply insert_index_keys.
  - eapply Permutation_NoDup; [|exact Hcons].
    unfold obj_keys. rewrite map_app. simpl. apply Permutation_cons_append.
Qed.

Lemma hostsLoop_NoDup (JSON_stringify' String_of' : Value -> jsstring)
    (zodError_toString' : JsObj jsstring -> jsstring) (path : jsstring)
    (sshFile : list Line) :
  forall hosts hosts',
    hostsLoop JSON_stringify' String_of' zodError_toString' path sshFile hosts
    = Ok hosts' ->
    NoDup (obj_keys hosts) -> NoDup (obj_keys hosts').
Proof.
  induction sshFile as [|line rest IH]; intros hosts hosts' H Hnd.
  - simpl in H. now injection H as <-.
  - apply hostsLoop_cons_ok in H
      as [(c & -> & H)|(host & config & kv & data & -> & Hin & _ & _ & H)].
    + eapply IH; eassumption.
    + eapply IH; [exact H|]. apply obj_set_NoDup; [|assumption].
      now apply obj_in_false in Hin.
Qed.

(** The mapping [getSSHConfig] returns has distinct keys. *)
Lemma getSSHConfig_NoDup (w : World) (path : jsstring)
    (hosts : SSHConfigHosts) :
  getSSHConfig' w path = Ok hosts -> NoDup (obj_keys hosts).
Proof.
  unfold getSSHConfig. cbv zeta.
  destruct (negb _); [discriminate|].
  destruct (fs_readFile _ _); [discriminate|].
  destruct (SSHConfig_parse _); [discriminate|].
  intros H. eapply hostsLoop_NoDup; [exact H|constructor].
Qed.

Lemma own_lookup_NoDup {V} (m : JsObj V) (k : jsstring) (v : V) :
  NoDup (obj_keys m) -> In (k, v) m -> own_lookup m k = Some v.
Proof.
  induction m as [|[k' v'] m IH]; simpl; intros Hnd Hin; [destruct Hin|].
  apply NoDup_cons_iff in Hnd as [Hk Hnd].
  destruct Hin as [E|Hin].
  - injection E as -> ->. now rewrite str_eqb_refl.
  - destruct (str_eqb k' k) eqn:E; [|now apply IH].
    apply str_eqb_eq in E. subst k'. exfalso. apply Hk.
    change k with (fst (k, v)). now apply in_map.
Qed.

Lemma gitHostsOf_filter (hosts : SSHConfigHosts) :
  NoDup (obj_keys hosts) ->
  gitHostsOf hosts = map fst (filter onGithub hosts).
Proof.
  intros Hnd. unfold gitHostsOf.
  assert (Hgen : forall (keys : SSHConfigHosts) (acc : list jsstring),
             (forall e, In e keys -> In e hosts) ->
             fold_left
               (fun gitHosts host =>
                  match own_lookup hosts host with
                  | Some hostConfig =>
                      if str_eqb (HostName hostConfig) (lit "github.com")
                      then gitHosts ++ [host] else gitHosts
                  | None => gitHosts
                  end) (obj_keys keys) acc
             = acc ++ map fst (filter onGithub keys)).
  { induction keys as [|[k v] keys IH]; intros acc Hsub; simpl.
    - now rewrite app_nil_r.
    - rewrite (@own_lookup_NoDup _ hosts k v Hnd (Hsub _ (or_introl eq_refl))).
      rewrite IH by (intros e He; apply Hsub; now right).
      unfold onGithub at 2. simpl snd.
      destruct (str_eqb (HostName v) (lit "github.com")); simpl;
        [now rewrite <- app_assoc|reflexivity]. }
  now apply (Hgen hosts []).
Qed.

Lemma forEach_log_map (f : jsstring -> jsstring) (arr : list jsstring) :
  forEach_log f arr = (map (fun x => Log (f x)) arr, inr tt).
Proof.
  induction arr as [|x arr IH]; [reflexivity|].
  simpl. now rewrite IH.
Qed.

(** C8.  Host listing reports exactly the aliases of the mapping whose
    [HostName] is [github.com], in the order the mapping enumerates them;
    of three entries two of which have that host name, those two, in their
    order. *)
Theorem listHosts_github (w : World) (hosts : SSHConfigHosts)
    (Hcfg : getSSHConfig' w defaultSSHConfigPath = Ok hosts) :
  gitHostsOf hosts = map fst (filter onGithub hosts)
  /\ listHosts expandTilde SSHConfig_parse JSON_stringify String_of
       zodError_toString w
     = (Log (lit "Available hosts:")
        :: map (fun host => Log (lit " - " ++ host))
             (map fst (filter onGithub hosts)),
        inr (Ok true))
  /\ forall a b c,
       hosts = [a; b; c] ->
       (onGithub a = true -> onGithub b = true -> onGithub c = false ->
        gitHostsOf hosts = [fst a; fst b])
       /\ (onGithub a = true -> onGithub b = false -> onGithub c = true ->
           gitHostsOf hosts = [fst a; fst c])
       /\ (onGithub a = false -> onGithub b = true -> onGithub c = true ->
           gitHostsOf hosts = [fst b; fst c]).
Proof.
  assert (Hlist : gitHostsOf hosts = map fst (filter onGithub hosts))
    by (apply gitHostsOf_filter; eapply getSSHConfig_NoDup; eassumption).
  split; [assumption|]. split.
  - unfold listHosts. cbv zeta. rewrite Hcfg, Hlist, forEach_log_map.
    simpl. now rewrite app_nil_r.
  - intros a b c E. rewrite Hlist, E. simpl.
    repeat split; intros -> -> ->; reflexivity.
Qed.
End SetupClaims.

(** ** Concrete runs *)

Ltac by_run :=
  first [ vm_compute; reflexivity
        | vm_compute; intros Habsurd; discriminate Habsurd
        | vm_compute; lia ].

Lemma six_writes_in_order_witness :
  writes (trace (run_gitSetup (workWorld alicePubkey allFail)))
  = [ (Global, lit "commit.gpgsign", lit "true");
      (Global, lit "tag.gpgsign", lit "true");
      (Global, lit "gpg.format", lit "ssh");
      (Local, lit "user.signingkey",
       replaceAll BACKSLASH SLASH
         (home_expandTilde (lit "~/.ssh/id_work") ++ lit ".pub"));
      (Local, lit "user.name", lit "bob");
      (Local, lit "user.email", lit "alice@example.com") ]
  /\ outcome (run_gitSetup (workWorld alicePubkey allFail)) = inr (Ok true).
Proof.
  eapply (@six_writes_in_order home_expandTilde table_parse
            plain_JSON_stringify plain_String_of plain_zodError_toString
            (workWorld alicePubkey allFail));
    by_run.
Defined.

Lemma email_is_last_space_token_witness :
  let text := trim alicePubkey in
  let email := lastPiece SPACE text in
  let w := workWorld alicePubkey allSucceed in
  emailOf alicePubkey = Some email
  /\ (forall pre token,
        text = pre ++ SPACE :: token -> ~ In SPACE token -> email = token)
  /\ (~ In SPACE text -> email = text)
  /\ (text = [] ->
      outcome (run_gitSetup w)
      = inr (Err GitSetupError.SSHPubkeyMalformedError
               (lit "No email found in file "
                ++ home_expandTilde (lit "~/.ssh/id_work") ++ lit ".pub")
               false))
  /\ (text <> [] ->
      email <> []
      /\ forall username,
           outcome (getUsername w
                      (sshHostOf (trim (lit "git@work:org/repo.git" ++ [LF]))))
           = inr (Some username) ->
           username <> [] ->
           In (Local, lit "user.email", email)
             (writes (trace (run_gitSetup w)))
           /\ outcome (run_gitSetup w) = inr (Ok true))
  /\ (alicePubkey = lit "ssh-ed25519 AAAAC3...  alice@example.com" ++ [LF] ->
      email = lit "alice@example.com").
Proof.
  eapply (@email_is_last_space_token home_expandTilde table_parse
            plain_JSON_stringify plain_String_of plain_zodError_toString
            (workWorld alicePubkey allSucceed));
    by_run.
Defined.

(** A public key whose fields are separated by tabs: the email written is
    the whole line, not its last token delimited by white space. *)
Lemma email_whitespace_counterexample :
  let w := workWorld tabbedPubkey allSucceed in
  outcome (run_gitSetup w) = inr (Ok true)
  /\ In (Local, lit "user.email",
         lit "ssh-ed25519" ++ [TAB] ++ lit "AAAAC3..." ++ [TAB]
         ++ lit "alice@example.com")
       (writes (trace (run_gitSetup w)))
  /\ lastWhiteSpaceToken tabbedPubkey = lit "alice@example.com"
  /\ emailOf tabbedPubkey <> Some (lastWhiteSpaceToken tabbedPubkey).
Proof.
  split; [by_run|]. split; [|split; by_run].
  vm_compute. tauto.
Qed.

Lemma getUsername_three_shapes_witness :
  outcome (getUsername
             (probeWorld (lit "Hi bob! You've successfully authenticated..."))
             (lit "work"))
  = inr (Some (lit "bob")).
Proof.
  exact (proj2 (proj2 (proj2 (proj2
           (@getUsername_three_shapes
              (probeWorld (lit "Hi bob! You've successfully authenticated..."))
              (lit "work") _ eq_refl)))) eq_refl).
Defined.

Lemma getUsername_no_bang_witness :
  let w := probeWorld (lit "Hi bob" ++ [LF]) in
  outcome (getUsername w (lit "work"))
  = inr (Some (substring 3 (trim (lit "Hi bob" ++ [LF]))))
  /\ substring 3 (trim (lit "Hi bob" ++ [LF])) <> []
  /\ outcome (getUsername w (lit "work")) <> inr None.
Proof.
  apply (@getUsername_no_bang (probeWorld (lit "Hi bob" ++ [LF])) (lit "work")
           (lit "Hi bob" ++ [LF])).
  - reflexivity.
  - reflexivity.
  - vm_compute. intuition discriminate.
Defined.

Lemma duplicate_alias_fails_witness :
  run_getSSHConfig (configWorld repeatedHostText) defaultSSHConfigPath
  = Err GetSSHConfigError.DuplicateHostError
      (lit "ssh file '" ++ home_expandTilde defaultSSHConfigPath
       ++ lit "' contains duplicate Hosts named '" ++ lit "work" ++ [QUOTE])
      false.
Proof.
  refine (proj2 (proj2
            (@duplicate_alias_fails home_expandTilde table_parse
               plain_JSON_stringify plain_String_of plain_zodError_toString
               (configWorld repeatedHostText) defaultSSHConfigPath
               repeatedHostText repeatedHost (lit "work") _ _ _ _))
            [ stanza "work" [ kv "HostName" "github.com"; kv "User" "git" ];
              stanza "home" [ kv "HostName" "gitlab.com"; kv "User" "git" ] ]
            [ kv "HostName" "github.com"; kv "User" "me" ] [] _ _ _);
    try by_run.
  vm_compute. tauto.
Defined.

(** A document that declares [work] twice and fails, but on its first line,
    with another error than the duplicate-host one. *)
Lemma duplicate_alias_counterexample :
  2 <= occurrences (lit "work") includeThenRepeat
  /\ table_parse includeThenRepeatText = inr includeThenRepeat
  /\ run_getSSHConfig (configWorld includeThenRepeatText) defaultSSHConfigPath
     = Err GetSSHConfigError.EntryNotAHostKeyValuePairError
         (lit "Unexpected top-level entry in ssh file '/home/me/.ssh/config': Include="
          ++ quoted (lit "~/.ssh/extra"))
         false
  /\ forall reason silent,
       run_getSSHConfig (configWorld includeThenRepeatText)
         defaultSSHConfigPath
       <> Err GetSSHConfigError.DuplicateHostError reason silent.
Proof.
  split; [by_run|]. split; [by_run|].
  assert (H : run_getSSHConfig (configWorld includeThenRepeatText)
                defaultSSHConfigPath
              = Err GetSSHConfigError.EntryNotAHostKeyValuePairError
                  (lit "Unexpected top-level entry in ssh file '/home/me/.ssh/config': Include="
                   ++ quoted (lit "~/.ssh/extra"))
                  false) by by_run.
  split; [exact H|]. intros reason silent. rewrite H. discriminate.
Qed.

Lemma getSSHConfig_lossless_witness :
  let w := configWorld twoHostsText in
  (exists hosts,
     run_getSSHConfig w defaultSSHConfigPath = Ok hosts
     /\ (forall alias, In alias (obj_keys hosts) <-> In alias (aliases twoHosts))
     /\ forall alias config,
          In (Directive (lit "Host") (VStr alias) (Some config)) twoHosts ->
          exists data,
            own_lookup hosts alias = Some data
            /\ Some (HostName data) = lastDeclared (lit "HostName") config
            /\ Some (User data) = lastDeclared (lit "User") config
            /\ IdentityFile data = lastDeclared (lit "IdentityFile") config
            /\ forall key v, declaredValues key config = [v] ->
                 lastDeclared key config = Some v)
  /\ forall w' path',
       success (run_getSSHConfig w' path') = false ->
       value_of (run_getSSHConfig w' path') = None.
Proof.
  apply (@getSSHConfig_lossless home_expandTilde table_parse
           plain_JSON_stringify plain_String_of plain_zodError_toString
           (configWorld twoHostsText) defaultSSHConfigPath twoHostsText
           twoHosts).
  - reflexivity.
  - reflexivity.
  - reflexivity.
  - reflexivity.
  - vm_compute. repeat constructor; simpl; intuition discriminate.
  - intros alias Halias. vm_compute in Halias.
    destruct Halias as [<-|[<-|[]]]; reflexivity.
Defined.

(** A well-formed stanza that declares two identity files: the mapping
    keeps the second, and the first is in no entry. *)
Lemma lossless_counterexample :
  let config := [ kv "HostName" "github.com"; kv "User" "git";
                  kv "IdentityFile" "~/.ssh/id_first";
                  kv "IdentityFile" "~/.ssh/id_second" ] in
  wellFormed twoIdentities = true
  /\ aliases twoIdentities = [lit "work"]
  /\ inherited (lit "work") = false
  /\ In (Directive (lit "Host") (VStr (lit "work")) (Some config))
       twoIdentities
  /\ In (lit "~/.ssh/id_first") (declaredValues (lit "IdentityFile") config)
  /\ run_getSSHConfig (configWorld twoIdentitiesText) defaultSSHConfigPath
     = Ok [ (lit "work",
             section "github.com" "git" (Some "~/.ssh/id_second"%string)) ]
  /\ forall hosts alias data,
       run_getSSHConfig (configWorld twoIdentitiesText) defaultSSHConfigPath
       = Ok hosts ->
       own_lookup hosts alias = Some data ->
       IdentityFile data <> Some (lit "~/.ssh/id_first").
Proof.
  assert (H : run_getSSHConfig (configWorld twoIdentitiesText)
                defaultSSHConfigPath
              = Ok [ (lit "work",
                      section "github.com" "git"
                        (Some "~/.ssh/id_second"%string)) ]) by by_run.
  repeat split; try by_run; try exact H.
  - now left.
  - vm_compute. tauto.
  - intros hosts alias data Hhosts. rewrite H in Hhosts.
    injection Hhosts as <-. simpl.
    destruct (str_eqb (lit "work") alias); [|discriminate].
    intros E. injection E as <-. vm_compute. discriminate.
Qed.

(** An alias declared once, but named like a member of [Object.prototype]:
    [host in hosts] holds on the empty mapping, and the document is rejected
    as declaring the alias twice. *)
Example inherited_alias_rejected :
  wellFormed inheritedAlias = true
  /\ aliases inheritedAlias = [lit "toString"]
  /\ run_getSSHConfig (configWorld inheritedAliasText) defaultSSHConfigPath
     = Err GetSSHConfigError.DuplicateHostError
         (lit "ssh file '/home/me/.ssh/config' contains duplicate Hosts named 'toString'")
         false.
Proof. repeat split; by_run. Qed.

Lemma config_missing_is_malformed_witness :
  outcome (run_gitSetup noConfigWorld)
  = inr (Err GitSetupError.SSHConfigFileMalformedError
           (lit "SSHConfigFileMissingError" ++ lit ": "
            ++ lit "No file found at " ++ home_expandTilde defaultSSHConfigPath)
           false)
  /\ forall (w' : World) (reason : jsstring) (silent : bool),
       outcome (run_gitSetup w')
       <> inr (Err GitSetupError.SSHConfigFileMissingError reason silent).
Proof.
  eapply (@config_missing_is_malformed home_expandTilde table_parse
            plain_JSON_stringify plain_String_of plain_zodError_toString
            noConfigWorld);
    by_run.
Defined.

Lemma remote_origin_host_key_witness :
  let w := workWorld alicePubkey allSucceed in
  let remoteOrigin := trim (lit "git@work:org/repo.git" ++ [LF]) in
  (startsWith (lit "git@") remoteOrigin = false ->
   outcome (run_gitSetup w)
   = inr (Err GitSetupError.RemoteOriginIsNotSSHError
            (lit "Remote origin '" ++ remoteOrigin
             ++ lit "' isn't an ssh-based origin") false))
  /\ (startsWith (lit "git@") remoteOrigin = true ->
      sshHostOf remoteOrigin
      = takeWhile (isnt COLON) (substring 4 remoteOrigin)
      /\ (forall host rest,
            remoteOrigin = lit "git@" ++ host ++ COLON :: rest ->
            ~ In COLON host ->
            sshHostOf remoteOrigin = host)
      /\ (forall hosts,
            run_getSSHConfig w defaultSSHConfigPath = Ok hosts ->
            obj_in (sshHostOf remoteOrigin) hosts = false ->
            outcome (run_gitSetup w)
            = inr (Err GitSetupError.SSHConfigHostMissingError
                     (join [LF]
                        ([ lit "No existing ssh config entry for the origin remote host '"
                             ++ sshHostOf remoteOrigin ++ [QUOTE];
                           lit "Existing Hosts are" ]
                         ++ obj_keys hosts)) false)))
  /\ sshHostOf (lit "git@work:org/repo.git") = lit "work".
Proof.
  eapply (@remote_origin_host_key home_expandTilde table_parse
            plain_JSON_stringify plain_String_of plain_zodError_toString
            (workWorld alicePubkey allSucceed));
    by_run.
Defined.

Lemma listHosts_github_witness :
  let w := configWorld threeHostsText in
  gitHostsOf threeHostsMapping = map fst (filter onGithub threeHostsMapping)
  /\ run_listHosts w
     = (Log (lit "Available hosts:")
        :: map (fun host => Log (lit " - " ++ host))
             (map fst (filter onGithub threeHostsMapping)),
        inr (Ok true))
  /\ forall a b c,
       threeHostsMapping = [a; b; c] ->
       (onGithub a = true -> onGithub b = true -> onGithub c = false ->
        gitHostsOf threeHostsMapping = [fst a; fst b])
       /\ (onGithub a = true -> onGithub b = false -> onGithub c = true ->
           gitHostsOf threeHostsMapping = [fst a; fst c])
       /\ (onGithub a = false -> onGithub b = true -> onGithub c = true ->
           gitHostsOf threeHostsMapping = [fst b; fst c]).
Proof.
  apply (@listHosts_github home_expandTilde table_parse
           plain_JSON_stringify plain_String_of plain_zodError_toString
           (configWorld threeHostsText) threeHostsMapping).
  reflexivity.
Defined.

(** The two aliases on [github.com] of the three, in their order. *)
Example listHosts_three :
  gitHostsOf threeHostsMapping = [lit "work"; lit "oss"]
  /\ trace (run_listHosts (configWorld threeHostsText))
     = [ Log (lit "Available hosts:"); Log (lit " - work");
         Log (lit " - oss") ].
Proof. split; reflexivity. Qed.

(** C5, at an input where the code departs from it.  The remote
    [git@toString:org/repo.git] names the host key [toString]; the mapping
    has the aliases [work] and [home] and no [toString]; yet [toString in
    sshConfigFile] holds, by inheritance from [Object.prototype], and the
    orchestrator goes past the lookup and fails with
    [SSHPubkeyMissingError], not with [SSHConfigHostMissingError] and the
    list of aliases. *)
Theorem inherited_host_key_passes_lookup :
  git_remote_origin_url toStringWorld
  = inr (lit "git@toString:org/repo.git" ++ [LF])
  /\ run_getSSHConfig toStringWorld defaultSSHConfigPath = Ok twoHostsMapping
  /\ obj_keys twoHostsMapping = [lit "work"; lit "home"]
  /\ own_lookup twoHostsMapping (lit "toString") = None
  /\ obj_in (lit "toString") twoHostsMapping = true
  /\ outcome (run_gitSetup toStringWorld)
     = inr (Err GitSetupError.SSHPubkeyMissingError
              (lit "No IdentityFile entry found for Host 'toString'") false).
Proof. repeat split; by_run. Qed.

(** * Further properties *)

(** ** The parser, line by line *)

Section ParserExtras.
Variable JSON_stringify : Value -> jsstring.
Variable String_of : Value -> jsstring.
Variable zodError_toString : JsObj jsstring -> jsstring.
Variable sshConfigPath : jsstring.

Local Abbreviation sectionLoop' := (sectionLoop String_of sshConfigPath).
Local Abbreviation hostsLoop' :=
  (hostsLoop JSON_stringify String_of zodError_toString sshConfigPath).

(** The inner loop fails on its first value that is not a string, and only
    then. *)
Lemma sectionLoop_ok_inv (host : jsstring) (config : list Line) :
  forall keyValues keyValues',
    sectionLoop' host config keyValues = Ok keyValues' ->
    forallb stringValued config = true.
Proof.
  induction config as [|[c|param [s|vs] cfg] config IH]; simpl;
    intros kv kv' H; try reflexivity; try discriminate; eapply IH; exact H.
Qed.

Lemma sectionLoop_err_inv (host : jsstring) (config : list Line) :
  forall keyValues error reason silent,
    sectionLoop' host config keyValues = Err error reason silent ->
    error = GetSSHConfigError.MalformedError /\ silent = false.
Proof.
  induction config as [|[c|param [s|vs] cfg] config IH]; simpl;
    intros kv error reason silent H; try discriminate;
    try (eapply IH; exact H).
  injection H as <- _ <-. now split.
Qed.

Lemma lastDeclared_declares (key v : jsstring) (config : list Line) :
  lastDeclared key config = Some v -> declares key config = true.
Proof.
  unfold lastDeclared, declares.
  destruct (declaredValues key config); [discriminate|reflexivity].
Qed.

Lemma declares_false (key : jsstring) (config : list Line) :
  declares key config = false -> lastDeclared key config = None.
Proof.
  unfold lastDeclared, declares.
  destruct (declaredValues key config); [reflexivity|discriminate].
Qed.

(** A stanza the schema accepts declares both required keys. *)
Lemma safeParse_declares (host : jsstring) (config : list Line)
    (keyValues : JsObj jsstring) (data : SSHConfigSection) :
  sectionLoop' host config [] = Ok keyValues ->
  safeParse keyValues = Some data ->
  forallb stringValued config = true
  /\ declares (lit "HostName") config = true
  /\ declares (lit "User") config = true.
Proof.
  intros Hsec Hzod.
  pose proof (sectionLoop_ok_inv _ _ _ Hsec) as Hstr.
  destruct (sectionLoop_fresh String_of sshConfigPath host config Hstr)
    as (kv & Hrun & Hkv).
  rewrite Hsec in Hrun. injection Hrun as <-.
  unfold safeParse in Hzod. rewrite !Hkv in Hzod by reflexivity.
  destruct (lastDeclared (lit "HostName") config) eqn:Eh; [|discriminate].
  destruct (lastDeclared (lit "User") config) eqn:Eu; [|discriminate].
  split; [assumption|].
  split; eapply lastDeclared_declares; eassumption.
Qed.

(** A stanza of string values that lacks a required key is refused. *)
Lemma safeParse_missing (host : jsstring) (config : list Line) :
  forallb stringValued config = true ->
  declares (lit "HostName") config = false
  \/ declares (lit "User") config = false ->
  exists keyValues,
    sectionLoop' host config [] = Ok keyValues
    /\ safeParse keyValues = None.
Proof.
  intros Hstr Hmiss.
  destruct (sectionLoop_fresh String_of sshConfigPath host config Hstr)
    as (kv & Hrun & Hkv).
  exists kv. split; [assumption|].
  unfold safeParse. rewrite !Hkv by reflexivity.
  destruct Hmiss as [H|H]; apply declares_false in H; rewrite H;
    [reflexivity|].
  now destruct (lastDeclared (lit "HostName") config).
Qed.

(** What the outer loop accepts is well formed, and none of its aliases is
    a name inherited from [Object.prototype]. *)
Lemma hostsLoop_ok_wellFormed (sshFile : list Line) :
  forall hosts hosts',
    hostsLoop' sshFile hosts = Ok hosts' ->
    wellFormed sshFile = true
    /\ forall a, In a (aliases sshFile) -> inherited a = false.
Proof.
  induction sshFile as [|line rest IH]; intros hosts hosts' H.
  - split; [reflexivity|]. intros a [].
  - apply hostsLoop_cons_ok in H
      as [(c & -> & H)|(host & config & kv & data & -> & Hin & Hsec & Hzod & H)].
    + now apply IH in H.
    + apply IH in H as [Hwf Hinh].
      destruct (safeParse_declares _ _ Hsec Hzod) as (Hstr & Hh & Hu).
      apply obj_in_false in Hin as (_ & Hhost & _).
      rewrite aliases_host. split.
      * cbn [wellFormed forallb wellFormedStanza stanza].
        now rewrite str_eqb_refl, Hstr, Hh, Hu.
      * intros a [<-|Ha]; [assumption|now apply Hinh].
Qed.

(** The keys of the mapping come from the aliases of the document. *)
Lemma hostsLoop_keys (sshFile : list Line) :
  forall hosts hosts',
    hostsLoop' sshFile hosts = Ok hosts' ->
    forall a, own_lookup hosts' a <> None ->
      own_lookup hosts a <> None \/ In a (aliases sshFile).
Proof.
  induction sshFile as [|line rest IH]; intros hosts hosts' H a Ha.
  - simpl in H. injection H as <-. now left.
  - apply hostsLoop_cons_ok in H
      as [(c & -> & H)|(host & config & kv & data & -> & Hin & _ & _ & H)].
    + simpl. eapply IH; eassumption.
    + rewrite aliases_host.
      destruct (IH _ _ H a Ha) as [Hset|Hrest]; [|right; now right].
      apply obj_in_false in Hin as (_ & _ & Hproto).
      rewrite own_lookup_set in Hset by assumption.
      destruct (str_eqb host a) eqn:E; [|now left].
      apply str_eqb_eq in E. right. now left.
Qed.

(** Every failure of the outer loop is of one of three kinds, and is not
    silent. *)
Lemma hostsLoop_err_inv (sshFile : list Line) :
  forall hosts error reason silent,
    hostsLoop' sshFile hosts = Err error reason silent ->
    silent = false
    /\ (error = GetSSHConfigError.EntryNotAHostKeyValuePairError
        \/ error = GetSSHConfigError.DuplicateHostError
        \/ error = GetSSHConfigError.MalformedError).
Proof.
  induction sshFile as [|[c|param [host|vs] [config|]] rest IH];
    intros hosts error reason silent H; simpl in H; try discriminate;
    try (eapply IH; exact H);
    destruct (negb (str_eqb param (lit "Host")));
    try (injection H as <- _ <-; tauto).
  destruct (obj_in host hosts); [injection H as <- _ <-; tauto|].
  destruct (sectionLoop' host config []) as [kv|e r s] eqn:Esec.
  - destruct (safeParse kv); [eapply IH; exact H|].
    injection H as <- _ <-. tauto.
  - injection H as <- _ <-.
    apply sectionLoop_err_inv in Esec as [-> ->]. tauto.
Qed.

(** The first line that is a directive other than [Host] stops an accepted
    prefix. *)
Lemma hostsLoop_not_host (pre post : list Line) (param : jsstring)
    (value : Value) (config : option (list Line)) (hosts : SSHConfigHosts) :
  success (hostsLoop' pre hosts) = true ->
  str_eqb param (lit "Host") = false ->
  hostsLoop' (pre ++ Directive param value config :: post) hosts
  = Err GetSSHConfigError.EntryNotAHostKeyValuePairError
      (lit "Unexpected top-level entry in ssh file '" ++ sshConfigPath
       ++ lit "': " ++ param ++ lit "=" ++ JSON_stringify value)
      false.
Proof.
  intros Hok Hp. rewrite hostsLoop_app.
  destruct (hostsLoop' pre hosts); [|discriminate].
  cbn [hostsLoop]. now rewrite Hp.
Qed.

Lemma wellFormed_notHost (sshFile : list Line) :
  wellFormed sshFile = true -> existsb notHost sshFile = false.
Proof.
  induction sshFile as [|[c|param [host|vs] [config|]] rest IH]; simpl;
    intros H; try discriminate; try reflexivity; try now apply IH.
  apply andb_true_iff in H as [Hline H].
  repeat (apply andb_true_iff in Hline as [Hline _]).
  rewrite Hline. simpl. now apply IH.
Qed.

(** Comments change nothing, at the top level or in a stanza. *)
Lemma sectionLoop_comments (host : jsstring) (config : list Line) :
  forall keyValues,
    sectionLoop' host (filter (fun l => negb (isComment l)) config) keyValues
    = sectionLoop' host config keyValues.
Proof.
  induction config as [|[c|param [s|vs] cfg] config IH]; simpl;
    intros kv; try reflexivity; apply IH.
Qed.

Lemma hostsLoop_comments (sshFile : list Line) :
  forall hosts,
    hostsLoop' (stripComments sshFile) hosts = hostsLoop' sshFile hosts.
Proof.
  unfold stripComments.
  induction sshFile as [|[c|param [host|vs] [config|]] rest IH];
    intros hosts; simpl; try reflexivity; try apply IH;
    destruct (negb (str_eqb param (lit "Host"))); try reflexivity.
  destruct (obj_in host hosts); [reflexivity|].
  rewrite sectionLoop_comments.
  destruct (sectionLoop' host config []) as [kv|]; [|reflexivity].
  destruct (safeParse kv); [apply IH|reflexivity].
Qed.

(** Without array-index aliases the mapping enumerates its keys in the
    order of the document. *)
Lemma hostsLoop_document_order (sshFile : list Line) :
  forall hosts hosts',
    hostsLoop' sshFile hosts = Ok hosts' ->
    (forall a, In a (aliases sshFile) -> arrayIndex a = None) ->
    obj_keys hosts' = obj_keys hosts ++ aliases sshFile.
Proof.
  induction sshFile as [|line rest IH]; intros hosts hosts' H Hidx.
  - simpl in H. injection H as <-. simpl. now rewrite app_nil_r.
  - apply hostsLoop_cons_ok in H
      as [(c & -> & H)|(host & config & kv & data & -> & Hin & _ & _ & H)].
    + simpl. now apply IH.
    + rewrite aliases_host in *.
      rewrite (IH _ _ H) by (intros a Ha; apply Hidx; now right).
      apply obj_in_false in Hin as (Hown & _ & Hproto).
      unfold obj_set. rewrite Hproto, Hown, (Hidx host) by now left.
      unfold obj_keys. rewrite map_app, <- app_assoc. reflexivity.
Qed.
End ParserExtras.

Section ParserProperties.
Variable expandTilde : jsstring -> jsstring.
Variable SSHConfig_parse : jsstring -> Error + list Line.
Variable JSON_stringify : Value -> jsstring.
Variable String_of : Value -> jsstring.
Variable zodError_toString : JsObj jsstring -> jsstring.

Local Abbreviation getSSHConfig' :=
  (getSSHConfig expandTilde SSHConfig_parse JSON_stringify String_of
     zodError_toString).
Local Abbreviation hostsLoop' :=
  (hostsLoop JSON_stringify String_of zodError_toString).

Lemma sectionLoop_app (path host : jsstring) (c1 c2 : list Line) :
  forall keyValues,
    sectionLoop String_of path host (c1 ++ c2) keyValues =
    match sectionLoop String_of path host c1 keyValues with
    | Ok keyValues' => sectionLoop String_of path host c2 keyValues'
    | Err error reason silent => Err error reason silent
    end.
Proof.
  induction c1 as [|[c|param [s|vs] cfg] c1 IH]; simpl; intros kv;
    try reflexivity; apply IH.
Qed.

(** X7.  The document [getSSHConfig] accepts, exactly: every top-level line is a
    comment or a [Host] section of string-valued keys that declares
    [HostName] and [User], the aliases are distinct, and none is the name of
    a member of [Object.prototype]. *)
Theorem getSSHConfig_accepts_iff (w : World) (path content : jsstring)
    (sshFile : list Line)
    (Hexists : fs_exists w (expandTilde path) = true)
    (Hread : fs_readFile w (expandTilde path) = inr content)
    (Hparse : SSHConfig_parse content = inr sshFile) :
  success (getSSHConfig' w path) = true
  <-> wellFormed sshFile = true
      /\ NoDup (aliases sshFile)
      /\ forall alias, In alias (aliases sshFile) -> inherited alias = false.
Proof.
  rewrite (getSSHConfig_parsed _ _ _ _ _ _ _ Hexists Hread Hparse).
  split.
  - destruct (hostsLoop' (expandTilde path) sshFile []) as [hosts'|] eqn:E;
      [intros _|discriminate].
    destruct (hostsLoop_ok_wellFormed _ _ _ _ _ _ E) as [Hwf Hinh].
    destruct (hostsLoop_ok_unique _ _ _ _ _ _ E) as (Hnd & _).
    now repeat split.
  - intros (Hwf & Hnd & Hinh).
    destruct (hostsLoop_wellFormed JSON_stringify String_of zodError_toString
                (expandTilde path) sshFile Hwf Hnd Hinh [])
      as (hosts' & -> & _); reflexivity.
Qed.

(** X8.  A document with a top-level directive other than [Host] is refused;
    the first such line, after lines that are accepted, gives the error
    [EntryNotAHostKeyValuePairError] with its key and the JSON of its
    value. *)
Theorem non_host_line_fails (w : World) (path content : jsstring)
    (sshFile : list Line)
    (Hexists : fs_exists w (expandTilde path) = true)
    (Hread : fs_readFile w (expandTilde path) = inr content)
    (Hparse : SSHConfig_parse content = inr sshFile)
    (Hline : existsb notHost sshFile = true) :
  success (getSSHConfig' w path) = false
  /\ forall pre param value config post,
       sshFile = pre ++ Directive param value config :: post ->
       str_eqb param (lit "Host") = false ->
       success (hostsLoop' (expandTilde path) pre []) = true ->
       getSSHConfig' w path
       = Err GetSSHConfigError.EntryNotAHostKeyValuePairError
           (lit "Unexpected top-level entry in ssh file '" ++ expandTilde path
            ++ lit "': " ++ param ++ lit "=" ++ JSON_stringify value)
           false.
Proof.
  rewrite (getSSHConfig_parsed _ _ _ _ _ _ _ Hexists Hread Hparse).
  split.
  - destruct (hostsLoop' (expandTilde path) sshFile []) as [hosts'|] eqn:E;
      [|reflexivity].
    destruct (hostsLoop_ok_wellFormed _ _ _ _ _ _ E) as [Hwf _].
    apply wellFormed_notHost in Hwf. congruence.
  - intros pre param value config post -> Hp Hok.
    now apply hostsLoop_not_host.
Qed.

(** The checks a new [Host] section passes after accepted lines. *)
Lemma new_stanza_reached (w : World) (path content alias : jsstring)
    (pre config post : list Line) :
  fs_exists w (expandTilde path) = true ->
  fs_readFile w (expandTilde path) = inr content ->
  SSHConfig_parse content
  = inr (pre ++ Directive (lit "Host") (VStr alias) (Some config) :: post) ->
  success (hostsLoop' (expandTilde path) pre []) = true ->
  ~ In alias (aliases pre) ->
  inherited alias = false ->
  exists hosts',
    hostsLoop' (expandTilde path) pre [] = Ok hosts'
    /\ getSSHConfig' w path
       = match sectionLoop String_of (expandTilde path) alias config [] with
         | Ok keyValues =>
             match safeParse keyValues with
             | Some data =>
                 hostsLoop' (expandTilde path) post (obj_set hosts' alias data)
             | None =>
                 Err GetSSHConfigError.MalformedError
                   (lit "malformed section at Host '" ++ alias
                    ++ lit "' due to " ++ zodError_toString keyValues)
                   false
             end
         | Err error reason silent => Err error reason silent
         end.
Proof.
  intros Hexists Hread Hparse Hpre Hnew Hname.
  rewrite (getSSHConfig_parsed _ _ _ _ _ _ _ Hexists Hread Hparse).
  rewrite hostsLoop_app.
  destruct (hostsLoop' (expandTilde path) pre []) as [hosts'|] eqn:E;
    [|discriminate].
  exists hosts'. split; [reflexivity|].
  assert (Hin : obj_in alias hosts' = false).
  { unfold obj_in. destruct (own_lookup hosts' alias) eqn:Eo; [|assumption].
    exfalso.
    destruct (hostsLoop_keys _ _ _ _ _ _ E alias) as [H|H];
      [congruence|now apply H|contradiction]. }
  cbn [hostsLoop]. rewrite str_eqb_refl. cbn [negb]. now rewrite Hin.
Qed.

(** X9.  A new [Host] section after accepted lines, whose keys have string
    values but do not include [HostName] and [User] both, is refused with
    [MalformedError] naming the host. *)
Theorem missing_required_key_fails (w : World)
    (path content alias : jsstring) (pre config post : list Line)
    (Hexists : fs_exists w (expandTilde path) = true)
    (Hread : fs_readFile w (expandTilde path) = inr content)
    (Hparse : SSHConfig_parse content
              = inr (pre ++ Directive (lit "Host") (VStr alias) (Some config)
                            :: post))
    (Hpre : success (hostsLoop' (expandTilde path) pre []) = true)
    (Hnew : ~ In alias (aliases pre))
    (Hname : inherited alias = false)
    (Hstr : forallb stringValued config = true)
    (Hmiss : declares (lit "HostName") config = false
             \/ declares (lit "User") config = false) :
  exists keyValues,
    getSSHConfig' w path
    = Err GetSSHConfigError.MalformedError
        (lit "malformed section at Host '" ++ alias ++ lit "' due to "
         ++ zodError_toString keyValues)
        false.
Proof.
  destruct (@new_stanza_reached _ _ _ _ _ _ _ Hexists Hread Hparse Hpre Hnew
              Hname) as (hosts' & _ & ->).
  destruct (safeParse_missing String_of (expandTilde path) alias config
              Hstr Hmiss) as (kv & -> & ->).
  now exists kv.
Qed.

(** X10.  A new [Host] section after accepted lines, one of whose keys has a
    value that is not a string, is refused with [MalformedError]; the reason
    names the host and the first such key. *)
Theorem non_string_value_fails (w : World)
    (path content alias param : jsstring) (vs : list jsstring)
    (pre before after post : list Line) (nested : option (list Line))
    (Hexists : fs_exists w (expandTilde path) = true)
    (Hread : fs_readFile w (expandTilde path) = inr content)
    (Hparse : SSHConfig_parse content
              = inr (pre
                     ++ Directive (lit "Host") (VStr alias)
                          (Some (before
                                 ++ Directive param (VArr vs) nested :: after))
                     :: post))
    (Hpre : success (hostsLoop' (expandTilde path) pre []) = true)
    (Hnew : ~ In alias (aliases pre))
    (Hname : inherited alias = false)
    (Hbefore : forallb stringValued before = true) :
  getSSHConfig' w path
  = Err GetSSHConfigError.MalformedError
      (lit "ssh file '" ++ expandTilde path ++ lit "' at Host '" ++ alias
       ++ lit "' at key '" ++ param
       ++ lit "' has non string value '" ++ String_of (VArr vs)
       ++ [QUOTE])
      false.
Proof.
  destruct (@new_stanza_reached _ _ _ _ _ _ _ Hexists Hread Hparse Hpre Hnew
              Hname) as (hosts' & _ & ->).
  rewrite sectionLoop_app.
  destruct (sectionLoop_stringValued String_of (expandTilde path) alias
              before Hbefore []) as (kv & -> & _).
  reflexivity.
Qed.

(** X11.  [getSSHConfig] never marks a failure silent and never returns
    [MissingHostNameError] or [MissingUserError]; it returns
    [SSHConfigFileMissingError] exactly when the file does not exist, and
    [ParseError] exactly when the file exists and reading or parsing it
    throws. *)
Theorem getSSHConfig_error_kinds (w : World) (path : jsstring)
    (error : GetSSHConfigError.t) (reason : jsstring) (silent : bool)
    (Hfail : getSSHConfig' w path = Err error reason silent) :
  silent = false
  /\ error <> GetSSHConfigError.MissingHostNameError
  /\ error <> GetSSHConfigError.MissingUserError
  /\ (error = GetSSHConfigError.SSHConfigFileMissingError
      <-> fs_exists w (expandTilde path) = false)
  /\ (error = GetSSHConfigError.ParseError
      <-> fs_exists w (expandTilde path) = true
          /\ match fs_readFile w (expandTilde path) with
             | inl _ => True
             | inr content =>
                 match SSHConfig_parse content with
                 | inl _ => True
                 | inr _ => False
                 end
             end).
Proof.
  unfold getSSHConfig in Hfail. cbv zeta in Hfail.
  destruct (fs_exists w (expandTilde path)) eqn:Ee; cbn [negb] in Hfail.
  - destruct (fs_readFile w (expandTilde path)) as [e|content].
    { injection Hfail as <- _ <-.
      repeat split; try discriminate; tauto. }
    destruct (SSHConfig_parse content) as [e|sshFile].
    { injection Hfail as <- _ <-.
      repeat split; try discriminate; tauto. }
    apply hostsLoop_err_inv in Hfail as [-> Hkind].
    destruct Hkind as [-> | [-> | ->]]; repeat split;
      try discriminate; try (intros [_ []]).
  - injection Hfail as <- _ <-.
    repeat split; try discriminate; try reflexivity.
    intros [H _]. discriminate.
Qed.

(** X12.  Comments do not matter: a document and the same document without its
    comments get the same result. *)
Theorem comments_ignored (w1 w2 : World) (path c1 c2 : jsstring)
    (sshFile : list Line)
    (Hexists1 : fs_exists w1 (expandTilde path) = true)
    (Hread1 : fs_readFile w1 (expandTilde path) = inr c1)
    (Hparse1 : SSHConfig_parse c1 = inr sshFile)
    (Hexists2 : fs_exists w2 (expandTilde path) = true)
    (Hread2 : fs_readFile w2 (expandTilde path) = inr c2)
    (Hparse2 : SSHConfig_parse c2 = inr (stripComments sshFile)) :
  getSSHConfig' w1 path = getSSHConfig' w2 path.
Proof.
  rewrite (getSSHConfig_parsed _ _ _ _ _ _ _ Hexists1 Hread1 Hparse1).
  rewrite (getSSHConfig_parsed _ _ _ _ _ _ _ Hexists2 Hread2 Hparse2).
  symmetry. apply hostsLoop_comments.
Qed.

(** X13.  When no alias is an array index (a canonical decimal numeral), the
    mapping enumerates the aliases in the order of the document. *)
Theorem hosts_in_document_order (w : World) (path content : jsstring)
    (sshFile : list Line) (hosts : SSHConfigHosts)
    (Hexists : fs_exists w (expandTilde path) = true)
    (Hread : fs_readFile w (expandTilde path) = inr content)
    (Hparse : SSHConfig_parse content = inr sshFile)
    (Hok : getSSHConfig' w path = Ok hosts)
    (Hidx : forall alias, In alias (aliases sshFile) ->
              arrayIndex alias = None) :
  obj_keys hosts = aliases sshFile.
Proof.
  rewrite (getSSHConfig_parsed _ _ _ _ _ _ _ Hexists Hread Hparse) in Hok.
  exact (@hostsLoop_document_order _ _ _ _ _ _ _ Hok Hidx).
Qed.
End ParserProperties.

(** ** The orchestrator, stage by stage *)

Lemma commands_app (t1 t2 : list Event) :
  commands (t1 ++ t2) = commands t1 ++ commands t2.
Proof.
  induction t1 as [|[c|msg] t1 IH]; simpl; now rewrite ?IH.
Qed.

Lemma logged_app (t1 t2 : list Event) :
  logged (t1 ++ t2) = logged t1 ++ logged t2.
Proof.
  induction t1 as [|[c|msg] t1 IH]; simpl; now rewrite ?IH.
Qed.

Lemma commands_bind_pair {A B} (t : list Event) (a : A) (f : A -> M B) :
  commands (trace (bind (t, inr a) f))
  = commands t ++ commands (trace (f a)).
Proof. now rewrite trace_bind, commands_app. Qed.

Lemma commands_writes (t : list Event) :
  writes t = [] ->
  forall location k v, ~ In (GitConfigSet location k v) (commands t).
Proof.
  induction t as [|[[| |h|l' k' v']|msg] t IH]; simpl; intros H location k v;
    try discriminate; try (specialize (IH H location k v));
    intuition discriminate.
Qed.

Lemma bind_ret_l {A B} (a : A) (f : A -> M B) : bind (ret a) f = f a.
Proof. unfold bind, ret. now destruct (f a). Qed.

Lemma getGitRemoteOrigin_thrown (w : World) (error : Error) :
  git_remote_origin_url w = inl error ->
  getGitRemoteOrigin w = ([Shell GitConfigGetRemoteOriginUrl], inr None).
Proof. intros H. unfold getGitRemoteOrigin, sh_text. now rewrite H. Qed.

(** The probe is the one command [getUsername] runs. *)
Lemma getUsername_commands (w : World) (sshHost : jsstring) :
  exists t u,
    getUsername w sshHost = (t, inr u) /\ commands t = [SshT sshHost].
Proof.
  destruct (ssh_T w sshHost) as [e|stdout] eqn:E.
  - rewrite (getUsername_thrown _ _ E). now eexists _, _.
  - rewrite (getUsername_captured _ _ E). cbv zeta.
    destruct (startsWith _ _); [now eexists _, _|].
    destruct (startsWith _ _); now eexists _, _.
Qed.

Lemma bind_setGitValue_commands {B} (w : World) (k v : jsstring)
    (location : GitConfigLocation) (rest : M B) :
  commands (trace (setGitValue w k v location ;; rest))
  = GitConfigSet location k v :: commands (trace rest).
Proof.
  rewrite trace_bind, commands_app, setGitValue_run.
  now destruct (git_config w location k v).
Qed.

Lemma dropWhile_nil (p : N -> bool) (s : jsstring) :
  dropWhile p s = [] <-> forallb p s = true.
Proof.
  induction s as [|c s IH]; simpl; [tauto|].
  destruct (p c); simpl; [assumption|]. split; discriminate.
Qed.

(** Only a text of white space trims to the empty text. *)
Lemma trim_nil (s : jsstring) :
  trim s = [] <-> forallb isWhiteSpace s = true.
Proof.
  unfold trim, trimEnd, trimStart. split.
  - intros H. apply dropWhile_nil.
    destruct (dropWhile_head isWhiteSpace s) as [E|(c & s' & E & Hc)];
      [assumption|].
    rewrite E in H. simpl in H.
    assert (Hrev : dropWhile isWhiteSpace (rev s' ++ [c]) = []).
    { rewrite <- (rev_involutive (dropWhile _ _)), H. reflexivity. }
    apply dropWhile_nil in Hrev. rewrite forallb_app in Hrev.
    apply andb_true_iff in Hrev as [_ Hrev]. simpl in Hrev.
    rewrite Hc in Hrev. discriminate.
  - intros H. apply dropWhile_nil in H. now rewrite H.
Qed.

Lemma takeWhile_isnt (sep : N) (s : jsstring) :
  ~ In sep (takeWhile (isnt sep) s).
Proof.
  induction s as [|c s IH]; simpl; [tauto|].
  unfold isnt at 1. destruct (N.eqb_spec c sep); simpl; [tauto|].
  intuition congruence.
Qed.

Lemma lastPiece_isnt (sep : N) (s : jsstring) : ~ In sep (lastPiece sep s).
Proof.
  unfold lastPiece. rewrite <- in_rev. apply takeWhile_isnt.
Qed.

Lemma lastPiece_suffix (sep : N) (s : jsstring) :
  exists pre, s = pre ++ lastPiece sep s.
Proof.
  destruct (last_sep_decompose sep s) as [H|(pre & e & -> & He)].
  - exists []. now rewrite lastPiece_no_sep.
  - exists (pre ++ [sep]). rewrite lastPiece_app by assumption.
    now rewrite <- app_assoc.
Qed.

Lemma replaceAll_gone (a b : N) (s : jsstring) :
  a <> b -> ~ In a (replaceAll a b s).
Proof.
  intros Hab. unfold replaceAll. induction s as [|c s IH]; simpl; [tauto|].
  destruct (N.eqb_spec c a); intuition congruence.
Qed.

Lemma replaceAll_same (a b : N) (s : jsstring) :
  ~ In a s -> replaceAll a b s = s.
Proof.
  unfold replaceAll. induction s as [|c s IH]; simpl; [reflexivity|].
  intros H. destruct (N.eqb_spec c a); [intuition congruence|].
  f_equal. apply IH. tauto.
Qed.

(** A username [getUsername] returns holds no [!]. *)
Lemma getUsername_no_bang_in (w : World) (sshHost username : jsstring) :
  outcome (getUsername w sshHost) = inr (Some username) ->
  ~ In BANG username.
Proof.
  destruct (ssh_T w sshHost) as [e|stdout] eqn:E.
  - rewrite (getUsername_thrown _ _ E). discriminate.
  - rewrite (getUsername_captured _ _ E). cbv zeta.
    destruct (startsWith _ _); [discriminate|].
    destruct (startsWith _ _); [|discriminate].
    intros H. injection H as <-. rewrite at0_split. apply takeWhile_isnt.
Qed.

(** [getUsername] gives a username that is not empty exactly when the
    probe printed a greeting that names a user. *)
Lemma getUsername_greeted (w : World) (sshHost : jsstring) :
  exists t u,
    getUsername w sshHost = (t, inr u)
    /\ writes t = []
    /\ commands t = [SshT sshHost]
    /\ (greeted (ssh_T w sshHost) = true ->
        exists username, u = Some username /\ username <> [])
    /\ (greeted (ssh_T w sshHost) = false -> truthy u = None).
Proof.
  destruct (ssh_T w sshHost) as [e|stdout] eqn:E.
  - rewrite (getUsername_thrown _ _ E). eexists _, _.
    repeat split; try reflexivity. discriminate.
  - rewrite (getUsername_captured _ _ E). cbv zeta. unfold greeted.
    destruct (startsWith (lit "Hi ") (trim stdout)) eqn:Hhi.
    + rewrite (marker_not_greeting _ Hhi). eexists _, _.
      split; [reflexivity|]. split; [reflexivity|]. split; [reflexivity|].
      rewrite at0_split.
      pose proof (startsWith_inv _ _ Hhi) as Hout.
      change (skipn (List.length (lit "Hi ")) (trim stdout))
        with (substring 3 (trim stdout)) in Hout.
      destruct (substring 3 (trim stdout)) as [|c rest] eqn:Hrest.
      * exfalso. rewrite app_nil_r in Hout.
        destruct (trim_last stdout) as [H0|(pre & c & Hpre & Hc)].
        -- rewrite H0 in Hout. discriminate.
        -- rewrite Hout in Hpre.
           change (lit "Hi ") with ([72; 105] ++ [SPACE])%N in Hpre.
           apply app_inj_tail in Hpre as [_ <-]. discriminate.
      * rewrite Hout.
        change (startsWith (lit "Hi !") (lit "Hi " ++ c :: rest))
          with (N.eqb BANG c && true).
        rewrite andb_true_r. simpl takeWhile. unfold isnt at 1 3.
        rewrite (N.eqb_sym c BANG).
        destruct (N.eqb BANG c); simpl; split; try discriminate.
        -- reflexivity.
        -- intros _. eexists. split; [reflexivity|discriminate].
    + cbn [andb].
      destruct (startsWith (lit "ssh: Could not resolve") (trim stdout));
        eexists _, _; repeat split; intros; try reflexivity; discriminate.
Qed.

Lemma commands_logs (f : jsstring -> jsstring) (l : list jsstring) :
  commands (map (fun x => Log (f x)) l) = [].
Proof. induction l as [|x l IH]; [reflexivity|exact IH]. Qed.

Lemma logged_logs (f : jsstring -> jsstring) (l : list jsstring) :
  logged (map (fun x => Log (f x)) l) = map f l.
Proof.
  induction l as [|x l IH]; [reflexivity|].
  cbn [map logged]. now rewrite IH.
Qed.

Section SetupProperties.
Variable expandTilde : jsstring -> jsstring.
Variable SSHConfig_parse : jsstring -> Error + list Line.
Variable JSON_stringify : Value -> jsstring.
Variable String_of : Value -> jsstring.
Variable zodError_toString : JsObj jsstring -> jsstring.

Local Abbreviation getSSHConfig' :=
  (getSSHConfig expandTilde SSHConfig_parse JSON_stringify String_of
     zodError_toString).
Local Abbreviation gitSetup' :=
  (gitSetup expandTilde SSHConfig_parse JSON_stringify String_of
     zodError_toString).
Local Abbreviation listHosts' :=
  (listHosts expandTilde SSHConfig_parse JSON_stringify String_of
     zodError_toString).

(** One step of a run whose helper returned. *)
Ltac step :=
  rewrite ?outcome_bind_pair, ?commands_bind_pair, ?writes_bind_pair.

(** A leaf of [gitSetup] that returns an error before the probe. *)
Ltac early_error :=
  right; left; split; [reflexivity|]; split; [reflexivity|];
  right; do 2 eexists; split; [reflexivity|simpl; tauto].

(** X1.  The commands [gitSetup] runs, and how it ends: only the repository
    test when that fails; the repository test and the remote query for
    every other failure before the probe, and for a throw; the probe too
    when it is the probe that gives no username; and the six writes, after
    the three, exactly when the result is success. *)
Theorem gitSetup_stages (w : World) :
  let run := gitSetup' w in
  (git_rev_parse w <> None
   /\ commands (trace run) = [GitRevParse]
   /\ exists reason,
        outcome run
        = inr (Err GitSetupError.NotInGitDirectoryError reason false))
  \/ (git_rev_parse w = None
      /\ commands (trace run) = [GitRevParse; GitConfigGetRemoteOriginUrl]
      /\ ((exists error, outcome run = inl error)
          \/ exists kind reason,
               outcome run = inr (Err kind reason false)
               /\ In kind
                    [ GitSetupError.NoRemoteOriginError;
                      GitSetupError.RemoteOriginIsNotSSHError;
                      GitSetupError.SSHConfigFileMalformedError;
                      GitSetupError.SSHConfigHostMissingError;
                      GitSetupError.SSHPubkeyMissingError;
                      GitSetupError.SSHPubkeyMalformedError ]))
  \/ (exists out reason,
        git_remote_origin_url w = inr out
        /\ commands (trace run)
           = [ GitRevParse; GitConfigGetRemoteOriginUrl;
               SshT (sshHostOf (trim out)) ]
        /\ outcome run
           = inr (Err GitSetupError.SSHPubkeyNotAttachedToUserError reason
                    false))
  \/ (exists out identityFilePath username email,
        git_remote_origin_url w = inr out
        /\ commands (trace run)
           = [ GitRevParse; GitConfigGetRemoteOriginUrl;
               SshT (sshHostOf (trim out)) ]
             ++ sixWrites identityFilePath username email
        /\ outcome run = inr (Ok true)).
Proof.
  cbv zeta. unfold gitSetup.
  destruct (git_rev_parse w) as [e|] eqn:Hrepo.
  { rewrite (isGitRepository_outside _ Hrepo). step. cbn [negb].
    left. split; [discriminate|]. split; [reflexivity|]. now eexists. }
  rewrite (isGitRepository_inside _ Hrepo). step. cbn [negb].
  destruct (git_remote_origin_url w) as [e|out] eqn:Hremote.
  { rewrite (getGitRemoteOrigin_thrown _ Hremote). step. early_error. }
  rewrite (getGitRemoteOrigin_text _ Hremote). step.
  destruct (truthy (Some (trim out))) as [remoteOrigin|] eqn:Hro;
    [|early_error].
  apply truthy_inv in Hro as [Hro _]. injection Hro as <-.
  destruct (startsWith (lit "git@") (trim out)); cbn [negb]; [|early_error].
  cbv zeta.
  destruct (getSSHConfig' w defaultSSHConfigPath) as [hosts'|error reason s];
    [|early_error].
  destruct (obj_in (sshHostOf (trim out)) hosts'); cbn [negb];
    [|early_error].
  destruct (obj_get hosts' (sshHostOf (trim out))) as [data| |];
    cbn [hostConfig_IdentityFile]; rewrite ?bind_ret_l.
  3: { right; left; split; [reflexivity|]; split; [reflexivity|].
       left. now eexists. }
  2: { early_error. }
  destruct (truthy (IdentityFile data)) as [idf|]; [|early_error].
  destruct (fs_exists w (expandTilde idf ++ lit ".pub")); cbn [negb];
    [|early_error].
  unfold readFile.
  destruct (fs_readFile w (expandTilde idf ++ lit ".pub")) as [e|content].
  { right; left; split; [reflexivity|]; split; [reflexivity|].
    left. now eexists. }
  step. cbv zeta.
  destruct (truthy (emailOf content)) as [email|]; [|early_error].
  destruct (getUsername_commands w (sshHostOf (trim out)))
    as (t & u & -> & Ht).
  step. rewrite Ht.
  destruct (truthy u) as [username|].
  - right; right; right.
    exists out, (expandTilde idf ++ lit ".pub"), username, email.
    split; [reflexivity|].
    repeat rewrite bind_setGitValue_commands.
    repeat rewrite (proj1 (bind_setGitValue _ _ _ _ _)).
    split; reflexivity.
  - right; right; left. exists out. eexists.
    split; [reflexivity|]. split; reflexivity.
Qed.

(** Every run of [gitSetup], by how it ends: an error without any write; a
    throw, of the read of a public key file that exists; or success after
    the six writes. *)
Lemma gitSetup_inv (w : World) :
  let run := gitSetup' w in
  (writes (trace run) = []
   /\ exists kind reason, outcome run = inr (Err kind reason false))
  \/ (writes (trace run) = []
      /\ exists idf error,
           fs_exists w (expandTilde idf ++ lit ".pub") = true
           /\ fs_readFile w (expandTilde idf ++ lit ".pub") = inl error
           /\ outcome run = inl error)
  \/ (exists out idf content email username,
        git_remote_origin_url w = inr out
        /\ idf <> []
        /\ fs_readFile w (expandTilde idf ++ lit ".pub") = inr content
        /\ truthy (emailOf content) = Some email
        /\ outcome (getUsername w (sshHostOf (trim out)))
           = inr (Some username)
        /\ username <> []
        /\ writes (trace run)
           = [ (Global, lit "commit.gpgsign", lit "true");
               (Global, lit "tag.gpgsign", lit "true");
               (Global, lit "gpg.format", lit "ssh");
               (Local, lit "user.signingkey",
                replaceAll BACKSLASH SLASH (expandTilde idf ++ lit ".pub"));
               (Local, lit "user.name", username);
               (Local, lit "user.email", email) ]
        /\ outcome run = inr (Ok true)).
Proof.
  cbv zeta. unfold gitSetup.
  assert (Herr : forall kind reason,
            writes (trace (@ret (Result bool GitSetupError.t)
                             (Err kind reason false))) = []
            /\ exists kind' reason',
                 outcome (@ret (Result bool GitSetupError.t)
                            (Err kind reason false))
                 = inr (Err kind' reason' false))
    by (intros kind reason; split; [reflexivity|now eexists _, _]).
  destruct (git_rev_parse w) as [e|] eqn:Hrepo.
  { rewrite (isGitRepository_outside _ Hrepo). step. cbn [negb].
    left. apply Herr. }
  rewrite (isGitRepository_inside _ Hrepo). step. cbn [negb].
  destruct (git_remote_origin_url w) as [e|out] eqn:Hremote.
  { rewrite (getGitRemoteOrigin_thrown _ Hremote). step. left. apply Herr. }
  rewrite (getGitRemoteOrigin_text _ Hremote). step.
  destruct (truthy (Some (trim out))) as [remoteOrigin|] eqn:Hro;
    [|left; apply Herr].
  apply truthy_inv in Hro as [Hro _]. injection Hro as <-.
  destruct (startsWith (lit "git@") (trim out)); cbn [negb];
    [|left; apply Herr].
  cbv zeta.
  destruct (getSSHConfig' w defaultSSHConfigPath) as [hosts'|error reason s];
    [|left; apply Herr].
  unfold obj_in, obj_get.
  destruct (own_lookup hosts' (sshHostOf (trim out))) as [data|];
    [|destruct (inherited (sshHostOf (trim out)))]; cbn [negb];
    cbn [hostConfig_IdentityFile]; rewrite ?bind_ret_l;
    try (left; apply Herr).
  destruct (truthy (IdentityFile data)) as [idf|] eqn:Hidf;
    [|left; apply Herr].
  apply truthy_inv in Hidf as [_ Hidf].
  destruct (fs_exists w (expandTilde idf ++ lit ".pub")) eqn:Hexists;
    cbn [negb]; [|left; apply Herr].
  unfold readFile.
  destruct (fs_readFile w (expandTilde idf ++ lit ".pub")) as [e|content]
    eqn:Hread.
  { right; left. split; [reflexivity|]. now exists idf, e. }
  step. cbv zeta.
  destruct (truthy (emailOf content)) as [email|] eqn:Hemail;
    [|left; apply Herr].
  destruct (getUsername_returns w (sshHostOf (trim out)))
    as (t & u & Hrun & Ht).
  rewrite Hrun. step. rewrite Ht.
  destruct (truthy u) as [username|] eqn:Hu; [|left; apply Herr].
  apply truthy_inv in Hu as [-> Hu].
  right; right. exists out, idf, content, email, username.
  rewrite Hrun.
  repeat rewrite (proj2 (bind_setGitValue _ _ _ _ _)).
  repeat rewrite (proj1 (bind_setGitValue _ _ _ _ _)).
  repeat split; try assumption; reflexivity.
Qed.

Local Abbreviation setup' :=
  (setup expandTilde SSHConfig_parse JSON_stringify String_of
     zodError_toString).
Local Abbreviation hosts' :=
  (hosts expandTilde SSHConfig_parse JSON_stringify String_of
     zodError_toString).

(** Stages 1 and 2 pass. *)
Ltac enter Hrepo Hremote Hne :=
  unfold gitSetup;
  rewrite (isGitRepository_inside _ Hrepo); step; cbn [negb];
  rewrite (getGitRemoteOrigin_text _ Hremote); step;
  rewrite (truthy_some Hne).

(** Stage 3 passes and the configuration loads. *)
Ltac config_loaded Hssh Hcfg :=
  rewrite Hssh; cbn [negb]; cbv zeta; rewrite Hcfg.

(** The host is an own key of the mapping. *)
Ltac own_host Hown :=
  unfold obj_in, obj_get; rewrite Hown; cbn [negb hostConfig_IdentityFile];
  rewrite ?bind_ret_l.

(** X2.  With a repository, [gitSetup] reports that no remote origin is
    configured exactly when the remote query throws or prints nothing but
    white space. *)
Theorem no_remote_origin_iff (w : World)
    (Hrepo : git_rev_parse w = None) :
  outcome (gitSetup' w)
  = inr (Err GitSetupError.NoRemoteOriginError
           (lit "No remote origin configured.") false)
  <-> match git_remote_origin_url w with
      | inl _ => True
      | inr out => forallb isWhiteSpace out = true
      end.
Proof.
  unfold gitSetup. rewrite (isGitRepository_inside _ Hrepo). step.
  cbn [negb].
  destruct (git_remote_origin_url w) as [e|out] eqn:Hremote.
  - rewrite (getGitRemoteOrigin_thrown _ Hremote). step. simpl. tauto.
  - rewrite (getGitRemoteOrigin_text _ Hremote). step.
    rewrite <- trim_nil.
    destruct (trim out) as [|c remoteOrigin] eqn:Hro.
    + simpl. tauto.
    + split; [|discriminate]. intros H. exfalso. revert H.
      match goal with
      | |- outcome ?m = _ -> _ =>
          enough (Hn : never GitSetupError.NoRemoteOriginError m)
            by apply Hn
      end.
      cbn [truthy].
      repeat first
        [ apply never_bind; intros ?
        | apply never_ret_Ok
        | apply never_ret_Err; discriminate
        | progress cbv zeta
        | match goal with
          | |- never _ (if ?b then _ else _) => destruct b
          | |- never _ (match ?x with _ => _ end) => destruct x
          end ].
Qed.

(** X3.  A public key file that exists but cannot be read makes [gitSetup]
    throw, before any write; and [gitSetup] throws on no other occasion. *)
Theorem unreadable_key_throws (w : World) (out : jsstring)
    (hosts : SSHConfigHosts) (data : SSHConfigSection)
    (idf : jsstring) (error : Error)
    (Hrepo : git_rev_parse w = None)
    (Hremote : git_remote_origin_url w = inr out)
    (Hne : trim out <> [])
    (Hssh : startsWith (lit "git@") (trim out) = true)
    (Hcfg : getSSHConfig' w defaultSSHConfigPath = Ok hosts)
    (Hown : own_lookup hosts (sshHostOf (trim out)) = Some data)
    (Hidf : IdentityFile data = Some idf)
    (Hidf_ne : idf <> [])
    (Hexists : fs_exists w (expandTilde idf ++ lit ".pub") = true)
    (Hread : fs_readFile w (expandTilde idf ++ lit ".pub") = inl error) :
  outcome (gitSetup' w) = inl error
  /\ commands (trace (gitSetup' w))
     = [GitRevParse; GitConfigGetRemoteOriginUrl]
  /\ forall w' error',
       outcome (gitSetup' w') = inl error' ->
       exists idf',
         fs_exists w' (expandTilde idf' ++ lit ".pub") = true
         /\ fs_readFile w' (expandTilde idf' ++ lit ".pub") = inl error'.
Proof.
  split; [|split].
  - enter Hrepo Hremote Hne. config_loaded Hssh Hcfg. own_host Hown.
    rewrite Hidf, (truthy_some Hidf_ne), Hexists. cbn [negb].
    unfold readFile. now rewrite Hread.
  - enter Hrepo Hremote Hne. config_loaded Hssh Hcfg. own_host Hown.
    rewrite Hidf, (truthy_some Hidf_ne), Hexists. cbn [negb].
    unfold readFile. now rewrite Hread.
  - intros w' error' H.
    destruct (gitSetup_inv w')
      as [(_ & k & r & E)|[(_ & idf' & e & He & Hr & E)|E]].
    + rewrite E in H. discriminate.
    + rewrite E in H. injection H as <-. now exists idf'.
    + destruct E as (? & ? & ? & ? & ? & _ & _ & _ & _ & _ & _ & _ & E).
      rewrite E in H. discriminate.
Qed.

(** X4.  Once an email is resolved, the outcome turns on the probe alone: the
    result is success when it printed a greeting that names a user, and
    otherwise (the probe threw, printed something else, or printed [Hi !],
    an empty name) [SSHPubkeyNotAttachedToUserError], with no write. *)
Theorem username_decides (w : World) (out : jsstring)
    (hosts : SSHConfigHosts) (data : SSHConfigSection)
    (idf content email : jsstring)
    (Hrepo : git_rev_parse w = None)
    (Hremote : git_remote_origin_url w = inr out)
    (Hne : trim out <> [])
    (Hssh : startsWith (lit "git@") (trim out) = true)
    (Hcfg : getSSHConfig' w defaultSSHConfigPath = Ok hosts)
    (Hown : own_lookup hosts (sshHostOf (trim out)) = Some data)
    (Hidf : IdentityFile data = Some idf)
    (Hidf_ne : idf <> [])
    (Hexists : fs_exists w (expandTilde idf ++ lit ".pub") = true)
    (Hread : fs_readFile w (expandTilde idf ++ lit ".pub") = inr content)
    (Hemail : truthy (emailOf content) = Some email) :
  (greeted (ssh_T w (sshHostOf (trim out))) = true ->
   outcome (gitSetup' w) = inr (Ok true))
  /\ (greeted (ssh_T w (sshHostOf (trim out))) = false ->
      outcome (gitSetup' w)
      = inr (Err GitSetupError.SSHPubkeyNotAttachedToUserError
               (lit "Could not determine username. Check if pubkey at "
                ++ (expandTilde idf ++ lit ".pub")
                ++ lit " is saved in github as an AuthN key") false)
      /\ writes (trace (gitSetup' w)) = []).
Proof.
  destruct (getUsername_greeted w (sshHostOf (trim out)))
    as (t & u & Hrun & Ht & _ & Hyes & Hno).
  split.
  - intros Hg. destruct (Hyes Hg) as (username & -> & Hu).
    eapply gitSetup_write_stage; try eassumption. now rewrite Hrun.
  - intros Hg. specialize (Hno Hg).
    split.
    + enter Hrepo Hremote Hne. config_loaded Hssh Hcfg. own_host Hown.
      rewrite Hidf, (truthy_some Hidf_ne), Hexists. cbn [negb].
      unfold readFile. rewrite Hread. step. cbv zeta.
      rewrite Hemail, Hrun. step. now rewrite Hno.
    + enter Hrepo Hremote Hne. config_loaded Hssh Hcfg. own_host Hown.
      rewrite Hidf, (truthy_some Hidf_ne), Hexists. cbn [negb].
      unfold readFile. rewrite Hread. step. cbv zeta.
      rewrite Hemail, Hrun. step. now rewrite Hno, Ht.
Qed.

(** X5.  A host entry without an identity file, or with an empty one, and an
    identity file whose [.pub] sibling does not exist, fail with the same
    kind [SSHPubkeyMissingError], under two reasons, and before the probe
    is run. *)
Theorem pubkey_missing (w : World) (out : jsstring)
    (hosts : SSHConfigHosts) (data : SSHConfigSection)
    (Hrepo : git_rev_parse w = None)
    (Hremote : git_remote_origin_url w = inr out)
    (Hne : trim out <> [])
    (Hssh : startsWith (lit "git@") (trim out) = true)
    (Hcfg : getSSHConfig' w defaultSSHConfigPath = Ok hosts)
    (Hown : own_lookup hosts (sshHostOf (trim out)) = Some data)
    (Hmissing : match truthy (IdentityFile data) with
                | None => True
                | Some idf =>
                    fs_exists w (expandTilde idf ++ lit ".pub") = false
                end) :
  outcome (gitSetup' w)
  = inr (Err GitSetupError.SSHPubkeyMissingError
           match truthy (IdentityFile data) with
           | None =>
               lit "No IdentityFile entry found for Host '"
               ++ sshHostOf (trim out) ++ [QUOTE]
           | Some idf =>
               lit "No such file exists " ++ expandTilde idf ++ lit ".pub"
           end false)
  /\ commands (trace (gitSetup' w))
     = [GitRevParse; GitConfigGetRemoteOriginUrl].
Proof.
  split.
  - enter Hrepo Hremote Hne. config_loaded Hssh Hcfg. own_host Hown.
    destruct (truthy (IdentityFile data)) as [idf|]; [|reflexivity].
    now rewrite Hmissing.
  - enter Hrepo Hremote Hne. config_loaded Hssh Hcfg. own_host Hown.
    destruct (truthy (IdentityFile data)) as [idf|]; [|reflexivity].
    now rewrite Hmissing.
Qed.

(** X6.  What a successful run wrote: the signing key is a [.pub] path without
    any backslash, of the length of the path it comes from; the user name
    is not empty and holds no [!]; the email is not empty and holds no
    space. *)
Theorem written_values (w : World)
    (Hok : outcome (gitSetup' w) = inr (Ok true)) :
  exists idf username email,
    writes (trace (gitSetup' w))
    = [ (Global, lit "commit.gpgsign", lit "true");
        (Global, lit "tag.gpgsign", lit "true");
        (Global, lit "gpg.format", lit "ssh");
        (Local, lit "user.signingkey",
         replaceAll BACKSLASH SLASH (expandTilde idf ++ lit ".pub"));
        (Local, lit "user.name", username);
        (Local, lit "user.email", email) ]
    /\ ~ In BACKSLASH
           (replaceAll BACKSLASH SLASH (expandTilde idf ++ lit ".pub"))
    /\ List.length
         (replaceAll BACKSLASH SLASH (expandTilde idf ++ lit ".pub"))
       = List.length (expandTilde idf ++ lit ".pub")
    /\ (~ In BACKSLASH (expandTilde idf) ->
        replaceAll BACKSLASH SLASH (expandTilde idf ++ lit ".pub")
        = expandTilde idf ++ lit ".pub")
    /\ username <> [] /\ ~ In BANG username
    /\ email <> [] /\ ~ In SPACE email.
Proof.
  destruct (gitSetup_inv w)
    as [(_ & k & r & E)|[(_ & idf' & e & _ & _ & E)|E]];
    try (rewrite E in Hok; discriminate).
  destruct E as (out & idf & content & email & username & _ & _ & _
                 & Hemail & Huser & Hu & Hw & _).
  exists idf, username, email. split; [assumption|].
  apply truthy_inv in Hemail as [Hemail Hemail_ne].
  rewrite emailOf_lastPiece in Hemail. injection Hemail as <-.
  repeat split; try assumption.
  - apply replaceAll_gone. discriminate.
  - unfold replaceAll. apply length_map.
  - intros H. apply replaceAll_same. intros Hin.
    apply in_app_or in Hin as [Hin|Hin]; [contradiction|].
    vm_compute in Hin. intuition discriminate.
  - eapply getUsername_no_bang_in; eassumption.
  - apply lastPiece_isnt.
Qed.

(** X14.  The [hosts] command never runs a subprocess and always reaches
    [process.exit()]; with a configuration that loads, it logs the heading
    and one line per host on [github.com], in the order of the mapping. *)
Theorem hosts_command (w : World) :
  snd (action (hosts' w)) = Exited
  /\ commands (fst (action (hosts' w))) = []
  /\ forall mapping,
       getSSHConfig' w defaultSSHConfigPath = Ok mapping ->
       logged (fst (action (hosts' w)))
       = lit "Available hosts:"
         :: map (fun host => lit " - " ++ host)
              (map fst (filter onGithub mapping)).
Proof.
  unfold hosts, makeCommand, listHosts. cbv zeta. cbn [action].
  destruct (getSSHConfig' w defaultSSHConfigPath) as [mapping|error reason s]
    eqn:Hcfg.
  - rewrite forEach_log_map.
    cbn [bind log ret app fst snd].
    rewrite !app_nil_r.
    split; [reflexivity|]. split.
    + cbn [commands]. apply commands_logs.
    + intros mapping' E. injection E as <-.
      cbn [logged]. rewrite logged_logs.
      rewrite gitHostsOf_filter; [reflexivity|].
      eapply getSSHConfig_NoDup; eassumption.
  - split; [reflexivity|]. split; [reflexivity|]. discriminate.
Qed.

(** X15.  A configuration that fails to load is reported by both commands with
    the same detail, the string of the parser's error kind and its reason,
    under the command's own error kind; [setup] has then run the repository
    test and the remote query, [hosts] nothing. *)
Theorem parser_failure_reported (w : World) (out : jsstring)
    (error : GetSSHConfigError.t) (reason : jsstring) (silent : bool)
    (Hrepo : git_rev_parse w = None)
    (Hremote : git_remote_origin_url w = inr out)
    (Hne : trim out <> [])
    (Hssh : startsWith (lit "git@") (trim out) = true)
    (Hfail : getSSHConfig' w defaultSSHConfigPath = Err error reason silent) :
  let detail := GetSSHConfigError.to_string error ++ lit ": " ++ reason in
  action (setup' w)
  = ([ Shell GitRevParse; Shell GitConfigGetRemoteOriginUrl;
       Log (lit "SSHConfigFileMalformedError" ++ lit ": " ++ detail) ],
     Exited)
  /\ action (hosts' w)
     = ([ Log (lit "MalformedSSHConfigFile" ++ lit ": " ++ detail) ], Exited).
Proof.
  cbv zeta. split.
  - unfold setup, makeCommand, gitSetup. cbn [action].
    rewrite (isGitRepository_inside _ Hrepo),
      (getGitRemoteOrigin_text _ Hremote).
    cbn [bind negb]. rewrite (truthy_some Hne), Hssh. cbn [negb].
    cbv zeta. rewrite Hfail. reflexivity.
  - unfold hosts, makeCommand, listHosts. cbn [action]. cbv zeta.
    rewrite Hfail. reflexivity.
Qed.
End SetupProperties.

(** ** Writes that fail, and the [setup] command *)

Lemma same_run_refl {A} (m : M A) : same_run m m.
Proof. now split. Qed.

Lemma same_run_bind {A B} (m : M A) (f f' : A -> M B) :
  (forall a, same_run (f a) (f' a)) -> same_run (bind m f) (bind m f').
Proof.
  intros H. unfold same_run. rewrite !outcome_bind, !trace_bind, !commands_app.
  destruct (outcome m) as [e|a]; [now split|].
  destruct (H a) as [-> ->]. now split.
Qed.

Lemma same_run_setGitValue {B} (w w' : World) (k v : jsstring)
    (location : GitConfigLocation) (rest rest' : M B) :
  same_run rest rest' ->
  same_run (setGitValue w k v location ;; rest)
    (setGitValue w' k v location ;; rest').
Proof.
  intros [Ho Hc]. split.
  - now rewrite !(proj1 (bind_setGitValue _ _ _ _ _)).
  - now rewrite !bind_setGitValue_commands, Hc.
Qed.

Section CommandProperties.
Variable expandTilde : jsstring -> jsstring.
Variable SSHConfig_parse : jsstring -> Error + list Line.
Variable JSON_stringify : Value -> jsstring.
Variable String_of : Value -> jsstring.
Variable zodError_toString : JsObj jsstring -> jsstring.

Local Abbreviation gitSetup' :=
  (gitSetup expandTilde SSHConfig_parse JSON_stringify String_of
     zodError_toString).
Local Abbreviation setup' :=
  (setup expandTilde SSHConfig_parse JSON_stringify String_of
     zodError_toString).

(** X16.  What [git config] answers to the writes changes neither the result of
    [gitSetup] nor the commands it runs: a failed write is logged and
    nothing else. *)
Theorem write_answers_do_not_matter (w : World)
    (answer : GitConfigLocation -> jsstring -> jsstring -> option Error) :
  outcome (gitSetup' (with_git_config w answer)) = outcome (gitSetup' w)
  /\ commands (trace (gitSetup' (with_git_config w answer)))
     = commands (trace (gitSetup' w)).
Proof.
  change (same_run (gitSetup' (with_git_config w answer)) (gitSetup' w)).
  unfold gitSetup.
  change (isGitRepository (with_git_config w answer))
    with (isGitRepository w).
  change (getGitRemoteOrigin (with_git_config w answer))
    with (getGitRemoteOrigin w).
  apply same_run_bind. intros isRepo.
  destruct (negb isRepo); [apply same_run_refl|].
  apply same_run_bind. intros remoteOrigin.
  destruct (truthy remoteOrigin) as [ro|]; [|apply same_run_refl].
  destruct (negb (startsWith (lit "git@") ro)); [apply same_run_refl|].
  cbv zeta.
  change (getSSHConfig expandTilde SSHConfig_parse JSON_stringify String_of
            zodError_toString (with_git_config w answer))
    with (getSSHConfig expandTilde SSHConfig_parse JSON_stringify String_of
            zodError_toString w).
  destruct (getSSHConfig expandTilde SSHConfig_parse JSON_stringify String_of
              zodError_toString w defaultSSHConfigPath) as [mapping|e r s];
    [|apply same_run_refl].
  destruct (negb (obj_in (sshHostOf ro) mapping)); [apply same_run_refl|].
  apply same_run_bind. intros identityFileEntry.
  destruct (truthy identityFileEntry) as [idf|]; [|apply same_run_refl].
  change (fs_exists (with_git_config w answer)) with (fs_exists w).
  destruct (negb (fs_exists w (expandTilde idf ++ lit ".pub")));
    [apply same_run_refl|].
  change (readFile (with_git_config w answer)) with (readFile w).
  apply same_run_bind. intros content.
  destruct (truthy (emailOf content)) as [email|]; [|apply same_run_refl].
  change (getUsername (with_git_config w answer)) with (getUsername w).
  apply same_run_bind. intros username.
  destruct (truthy username) as [name|]; [|apply same_run_refl].
  repeat apply same_run_setGitValue. apply same_run_refl.
Qed.

(** X17.  The [setup] command: when [gitSetup] returns, the process reaches
    [process.exit()] after the commands of [gitSetup], having logged no
    further line on success and one last line, the error kind and the
    reason, on failure; it does not reach it only when [gitSetup] throws,
    on a public key file that exists and cannot be read. *)
Theorem setup_command (w : World) :
  (outcome (gitSetup' w) = inr (Ok true)
   /\ action (setup' w) = (trace (gitSetup' w), Exited))
  \/ (exists kind reason,
        outcome (gitSetup' w) = inr (Err kind reason false)
        /\ writes (trace (gitSetup' w)) = []
        /\ action (setup' w)
           = (trace (gitSetup' w)
              ++ [Log (GitSetupError_to_string kind ++ lit ": " ++ reason)],
              Exited))
  \/ (exists idf error,
        fs_exists w (expandTilde idf ++ lit ".pub") = true
        /\ fs_readFile w (expandTilde idf ++ lit ".pub") = inl error
        /\ action (setup' w) = (trace (gitSetup' w), Rejected error)).
Proof.
  unfold setup, makeCommand. cbn [action].
  destruct (gitSetup_inv expandTilde SSHConfig_parse JSON_stringify String_of
              zodError_toString w)
    as [(Hw & k & r & E)|[(_ & idf & e & He & Hr & E)|E]].
  - right; left. exists k, r. split; [assumption|]. split; [assumption|].
    destruct (gitSetup' w) as [t o]. cbn [outcome snd] in E. subst o.
    reflexivity.
  - right; right. exists idf, e. split; [assumption|]. split; [assumption|].
    destruct (gitSetup' w) as [t o]. cbn [outcome snd] in E. subst o.
    reflexivity.
  - destruct E as (? & ? & ? & ? & ? & _ & _ & _ & _ & _ & _ & _ & E).
    left. split; [assumption|].
    destruct (gitSetup' w) as [t o]. cbn [outcome snd] in E. subst o.
    cbn [bind ret trace fst]. now rewrite app_nil_r.
Qed.
End CommandProperties.

(** ** Concrete runs of the further properties *)

Lemma no_remote_origin_iff_witness :
  outcome (more_gitSetup blankRemoteWorld)
  = inr (Err GitSetupError.NoRemoteOriginError
           (lit "No remote origin configured.") false).
Proof.
  apply (proj2 (@no_remote_origin_iff home_expandTilde more_parse
                  plain_JSON_stringify object_String_of
                  plain_zodError_toString blankRemoteWorld eq_refl)).
  reflexivity.
Defined.

Lemma unreadable_key_throws_witness :
  outcome (more_gitSetup unreadableKeyWorld)
  = inl (lit "Error: EACCES: permission denied")
  /\ commands (trace (more_gitSetup unreadableKeyWorld))
     = [GitRevParse; GitConfigGetRemoteOriginUrl]
  /\ forall w' error',
       outcome (more_gitSetup w') = inl error' ->
       exists idf',
         fs_exists w' (home_expandTilde idf' ++ lit ".pub") = true
         /\ fs_readFile w' (home_expandTilde idf' ++ lit ".pub")
            = inl error'.
Proof.
  eapply (@unreadable_key_throws home_expandTilde more_parse
            plain_JSON_stringify object_String_of plain_zodError_toString
            unreadableKeyWorld);
    by_run.
Defined.

Lemma username_decides_witness :
  let w := probeWorld (lit "Hi ! You've successfully authenticated...") in
  let host := sshHostOf (trim (lit "git@work:org/repo.git" ++ [LF])) in
  (greeted (ssh_T w host) = true -> outcome (more_gitSetup w) = inr (Ok true))
  /\ (greeted (ssh_T w host) = false ->
      outcome (more_gitSetup w)
      = inr (Err GitSetupError.SSHPubkeyNotAttachedToUserError
               (lit "Could not determine username. Check if pubkey at "
                ++ (home_expandTilde (lit "~/.ssh/id_work") ++ lit ".pub")
                ++ lit " is saved in github as an AuthN key") false)
      /\ writes (trace (more_gitSetup w)) = []).
Proof.
  eapply (@username_decides home_expandTilde more_parse
            plain_JSON_stringify object_String_of plain_zodError_toString
            (probeWorld (lit "Hi ! You've successfully authenticated...")));
    by_run.
Defined.

(** The greeting of an empty name: [getUsername] returns the empty string,
    which [gitSetup] takes for no username. *)
Example empty_username :
  let w := probeWorld (lit "Hi ! You've successfully authenticated...") in
  outcome (getUsername w (lit "work")) = inr (Some [])
  /\ greeted (ssh_T w (lit "work")) = false
  /\ commands (trace (more_gitSetup w))
     = [GitRevParse; GitConfigGetRemoteOriginUrl; SshT (lit "work")].
Proof. repeat split; by_run. Qed.

Lemma pubkey_missing_witness :
  let data := section "gitlab.com" "git" None in
  let out := lit "git@home:org/repo.git" ++ [LF] in
  outcome (more_gitSetup homeWorld)
  = inr (Err GitSetupError.SSHPubkeyMissingError
           match truthy (IdentityFile data) with
           | None =>
               lit "No IdentityFile entry found for Host '"
               ++ sshHostOf (trim out) ++ [QUOTE]
           | Some idf =>
               lit "No such file exists " ++ home_expandTilde idf
               ++ lit ".pub"
           end false)
  /\ commands (trace (more_gitSetup homeWorld))
     = [GitRevParse; GitConfigGetRemoteOriginUrl].
Proof.
  eapply (@pubkey_missing home_expandTilde more_parse
            plain_JSON_stringify object_String_of plain_zodError_toString
            homeWorld);
    first [ by_run | exact I ].
Defined.

Lemma written_values_witness :
  let w := workWorld alicePubkey allFail in
  exists idf username email,
    writes (trace (more_gitSetup w))
    = [ (Global, lit "commit.gpgsign", lit "true");
        (Global, lit "tag.gpgsign", lit "true");
        (Global, lit "gpg.format", lit "ssh");
        (Local, lit "user.signingkey",
         replaceAll BACKSLASH SLASH (home_expandTilde idf ++ lit ".pub"));
        (Local, lit "user.name", username);
        (Local, lit "user.email", email) ]
    /\ ~ In BACKSLASH
           (replaceAll BACKSLASH SLASH (home_expandTilde idf ++ lit ".pub"))
    /\ List.length
         (replaceAll BACKSLASH SLASH (home_expandTilde idf ++ lit ".pub"))
       = List.length (home_expandTilde idf ++ lit ".pub")
    /\ (~ In BACKSLASH (home_expandTilde idf) ->
        replaceAll BACKSLASH SLASH (home_expandTilde idf ++ lit ".pub")
        = home_expandTilde idf ++ lit ".pub")
    /\ username <> [] /\ ~ In BANG username
    /\ email <> [] /\ ~ In SPACE email.
Proof.
  apply (@written_values home_expandTilde more_parse
           plain_JSON_stringify object_String_of plain_zodError_toString
           (workWorld alicePubkey allFail)).
  reflexivity.
Defined.

Lemma getSSHConfig_accepts_iff_witness :
  success (more_getSSHConfig (configWorld twoHostsText) defaultSSHConfigPath)
  = true
  <-> wellFormed twoHosts = true
      /\ NoDup (aliases twoHosts)
      /\ forall alias, In alias (aliases twoHosts) -> inherited alias = false.
Proof.
  apply (@getSSHConfig_accepts_iff home_expandTilde more_parse
           plain_JSON_stringify object_String_of plain_zodError_toString
           (configWorld twoHostsText) defaultSSHConfigPath twoHostsText
           twoHosts);
    reflexivity.
Defined.

Lemma non_host_line_fails_witness :
  more_getSSHConfig (configWorld includeThenRepeatText) defaultSSHConfigPath
  = Err GetSSHConfigError.EntryNotAHostKeyValuePairError
      (lit "Unexpected top-level entry in ssh file '"
       ++ home_expandTilde defaultSSHConfigPath
       ++ lit "': " ++ lit "Include" ++ lit "="
       ++ plain_JSON_stringify (VStr (lit "~/.ssh/extra")))
      false.
Proof.
  refine (proj2
            (@non_host_line_fails home_expandTilde more_parse
               plain_JSON_stringify object_String_of plain_zodError_toString
               (configWorld includeThenRepeatText) defaultSSHConfigPath
               includeThenRepeatText includeThenRepeat _ _ _ _)
            [] (lit "Include") (VStr (lit "~/.ssh/extra")) None
            [ stanza "work" [ kv "HostName" "github.com"; kv "User" "git" ];
              stanza "work" [ kv "HostName" "github.com"; kv "User" "me" ] ]
            _ _ _);
    by_run.
Defined.

Lemma missing_required_key_fails_witness :
  exists keyValues,
    more_getSSHConfig (configWorld missingUserText) defaultSSHConfigPath
    = Err GetSSHConfigError.MalformedError
        (lit "malformed section at Host '" ++ lit "work" ++ lit "' due to "
         ++ plain_zodError_toString keyValues)
        false.
Proof.
  eapply (@missing_required_key_fails home_expandTilde more_parse
            plain_JSON_stringify object_String_of plain_zodError_toString
            (configWorld missingUserText) defaultSSHConfigPath missingUserText
            (lit "work")
            [ stanza "home" [ kv "HostName" "gitlab.com"; kv "User" "git" ] ]
            [ kv "HostName" "github.com" ] []);
    try by_run.
  vm_compute. intuition discriminate.
Defined.

Lemma non_string_value_fails_witness :
  more_getSSHConfig (configWorld arrayValueText) defaultSSHConfigPath
  = Err GetSSHConfigError.MalformedError
      (lit "ssh file '" ++ home_expandTilde defaultSSHConfigPath
       ++ lit "' at Host '" ++ lit "work" ++ lit "' at key '" ++ lit "SendEnv"
       ++ lit "' has non string value '"
       ++ object_String_of (VArr [lit "LANG"; lit "LC_ALL"]) ++ [QUOTE])
      false.
Proof.
  eapply (@non_string_value_fails home_expandTilde more_parse
            plain_JSON_stringify object_String_of plain_zodError_toString
            (configWorld arrayValueText) defaultSSHConfigPath arrayValueText
            (lit "work") (lit "SendEnv") [lit "LANG"; lit "LC_ALL"] []
            [ kv "HostName" "github.com" ] [ kv "User" "git" ] [] None);
    by_run.
Defined.

Lemma getSSHConfig_error_kinds_witness :
  let error := GetSSHConfigError.SSHConfigFileMissingError in
  false = false
  /\ error <> GetSSHConfigError.MissingHostNameError
  /\ error <> GetSSHConfigError.MissingUserError
  /\ (error = GetSSHConfigError.SSHConfigFileMissingError
      <-> fs_exists noConfigWorld (home_expandTilde defaultSSHConfigPath)
          = false)
  /\ (error = GetSSHConfigError.ParseError
      <-> fs_exists noConfigWorld (home_expandTilde defaultSSHConfigPath)
          = true
          /\ match fs_readFile noConfigWorld
                   (home_expandTilde defaultSSHConfigPath) with
             | inl _ => True
             | inr content =>
                 match more_parse content with
                 | inl _ => True
                 | inr _ => False
                 end
             end).
Proof.
  apply (@getSSHConfig_error_kinds home_expandTilde more_parse
           plain_JSON_stringify object_String_of plain_zodError_toString
           noConfigWorld defaultSSHConfigPath
           GetSSHConfigError.SSHConfigFileMissingError
           (lit "No file found at /home/me/.ssh/config") false).
  reflexivity.
Defined.

Lemma comments_ignored_witness :
  more_getSSHConfig (configWorld twoHostsText) defaultSSHConfigPath
  = more_getSSHConfig (configWorld twoHostsPlainText) defaultSSHConfigPath.
Proof.
  apply (@comments_ignored home_expandTilde more_parse
           plain_JSON_stringify object_String_of plain_zodError_toString
           (configWorld twoHostsText) (configWorld twoHostsPlainText)
           defaultSSHConfigPath twoHostsText twoHostsPlainText twoHosts);
    reflexivity.
Defined.

Lemma hosts_in_document_order_witness :
  obj_keys threeHostsMapping = aliases threeHosts.
Proof.
  apply (@hosts_in_document_order home_expandTilde more_parse
           plain_JSON_stringify object_String_of plain_zodError_toString
           (configWorld threeHostsText) defaultSSHConfigPath threeHostsText
           threeHosts threeHostsMapping);
    try reflexivity.
  intros alias Halias. vm_compute in Halias.
  destruct Halias as [<-|[<-|[<-|[]]]]; reflexivity.
Defined.

(** Aliases that are array indices come first, in numeric order, whatever
    the order of the document. *)
Example numeric_aliases_first :
  obj_keys
    (obj_set (obj_set (obj_set (obj_set [] (lit "work") 1) (lit "10") 2)
                (lit "home") 3) (lit "9") 4)
  = [lit "9"; lit "10"; lit "work"; lit "home"].
Proof. reflexivity. Qed.

Lemma hosts_command_witness :
  let w := configWorld threeHostsText in
  snd (action (more_hosts w)) = Exited
  /\ commands (fst (action (more_hosts w))) = []
  /\ forall mapping,
       more_getSSHConfig w defaultSSHConfigPath = Ok mapping ->
       logged (fst (action (more_hosts w)))
       = lit "Available hosts:"
         :: map (fun host => lit " - " ++ host)
              (map fst (filter onGithub mapping)).
Proof.
  apply (@hosts_command home_expandTilde more_parse
           plain_JSON_stringify object_String_of plain_zodError_toString
           (configWorld threeHostsText)).
Defined.

Lemma parser_failure_reported_witness :
  let detail :=
    GetSSHConfigError.to_string GetSSHConfigError.SSHConfigFileMissingError
    ++ lit ": " ++ lit "No file found at /home/me/.ssh/config" in
  action (more_setup noConfigWorld)
  = ([ Shell GitRevParse; Shell GitConfigGetRemoteOriginUrl;
       Log (lit "SSHConfigFileMalformedError" ++ lit ": " ++ detail) ],
     Exited)
  /\ action (more_hosts noConfigWorld)
     = ([ Log (lit "MalformedSSHConfigFile" ++ lit ": " ++ detail) ], Exited).
Proof.
  eapply (@parser_failure_reported home_expandTilde more_parse
            plain_JSON_stringify object_String_of plain_zodError_toString
            noConfigWorld);
    by_run.
Defined.
